(** * HampterLiker: the YouTube service layer (youtube_service.py)

    A shallow embedding of the workflow functions of [youtube_service.py]:
    handle normalisation, channel resolution with its two lookup strategies,
    paginated video enumeration, the two like executors and the workflow
    orchestrator.

    The [youtube] service object is an opaque remote API.  It is modelled as
    a record of transition functions over an abstract world [W]: each call
    reads the world, answers with a value or a raised exception, and leaves
    a new world.  Every call that the program issues is also appended to a
    request log, so that "which requests were sent, and in which order" can
    be stated.  Python [str] values are modelled by their UTF-8 byte
    sequence ([string]); the only characters the program inspects (['@'],
    the letters of ["quota"]) are ASCII. *)

From Stdlib Require Import String Ascii List Bool Arith Lia.
Import ListNotations.
Local Open Scope string_scope.
Local Open Scope list_scope.

(** ** Python strings *)

Module PyStr.

(** [c in chars] for a one-character [c]. *)
Fixpoint mem (c : ascii) (chars : string) : bool :=
  match chars with
  | EmptyString => false
  | String a rest => Ascii.eqb c a || mem c rest
  end.

(** [s.lstrip(chars)]: drop the longest prefix made of characters of
    [chars]. *)
Fixpoint lstrip (chars : string) (s : string) : string :=
  match s with
  | EmptyString => EmptyString
  | String a rest => if mem a chars then lstrip chars rest else s
  end.

Definition is_upper (c : ascii) : bool :=
  let n := nat_of_ascii c in ((65 <=? n)%nat && (n <=? 90)%nat)%bool.

Definition lower_char (c : ascii) : ascii :=
  if is_upper c then ascii_of_nat (nat_of_ascii c + 32) else c.

(** [s.lower()] on the ASCII letters. *)
Fixpoint lower (s : string) : string :=
  match s with
  | EmptyString => EmptyString
  | String a rest => String (lower_char a) (lower rest)
  end.

(** [needle in hay]. *)
Fixpoint contains (needle hay : string) : bool :=
  String.prefix needle hay ||
  match hay with
  | EmptyString => false
  | String _ rest => contains needle rest
  end.

(** Truthiness of a [str]. *)
Definition truthy (s : string) : bool :=
  match s with EmptyString => false | _ => true end.

End PyStr.

(** ** Data model *)

Module Channel.
Record t := mk { id : string; handle : string }.
End Channel.

Module Video.
Record t := mk { id : string }.
End Video.

Record LikeResult := mkLikeResult {
  video_id : string;
  success : bool;
  error : option string;
  quota_exceeded : bool
}.

(** ** Exceptions and outcomes *)

(** The exceptions the service layer can meet.  [HttpError] carries the
    string form [str(error)]; [OtherException] stands for any other
    subclass of [Exception] (transport and authentication failures). *)
Inductive exn :=
| HttpError (msg : string)
| KeyError (key : string)
| OtherException (msg : string).

Inductive outcome (A : Type) :=
| Return (a : A)
| Raise (e : exn).
Arguments Return {A} a.
Arguments Raise {A} e.

(** ** API payloads *)

(** An item of a [channels().list] response: a JSON object, kept as an
    association list. *)
Definition channel_item := list (string * string).

Fixpoint dict_get (key : string) (d : list (string * string)) : option string :=
  match d with
  | [] => None
  | (k, v) :: rest => if String.eqb k key then Some v else dict_get key rest
  end.

(** Truthiness of a list or dict: non-empty. *)
Definition truthy {A} (l : list A) : bool :=
  match l with [] => false | _ => true end.

(** The [items] key may be absent: [response.get("items", [])]. *)
Record channels_response := { channel_items : option (list channel_item) }.

Record resource_id := { videoId : option string }.
Record search_item := { item_id : option resource_id }.
Record search_response := {
  items : option (list search_item);
  nextPageToken : option string
}.

Definition get_default {A} (o : option A) (d : A) : A :=
  match o with Some a => a | None => d end.

(** ** Requests, events and the service object *)

Inductive request :=
| ChannelsList_forHandle (handle : string)
| ChannelsList_forUsername (username : string)
| SearchList (channelId : string) (maxResults : nat) (pageToken : option string)
| VideosRate (id : string) (rating : string).

Inductive event :=
| Request (r : request)
| Progress (current total : nat) (video : Video.t).

(** The authenticated [youtube] object: the four endpoints the program
    uses, each a transition on the remote world. *)
Record Service (W : Type) := {
  channels_list_forHandle : string -> W -> outcome channels_response * W;
  channels_list_forUsername : string -> W -> outcome channels_response * W;
  search_list : string -> nat -> option string -> W -> outcome search_response * W;
  videos_rate : string -> string -> W -> outcome unit * W
}.
Arguments channels_list_forHandle {W} _ _ _.
Arguments channels_list_forUsername {W} _ _ _.
Arguments search_list {W} _ _ _ _ _.
Arguments videos_rate {W} _ _ _ _.

(** A progress callback [(current, total, video) -> None]; it may touch
    the world and, as any Python call, may raise. *)
Definition Callback (W : Type) := nat -> nat -> Video.t -> W -> outcome unit * W.

(** ** The monad of the service layer *)

Section Monad.
Context {W : Type}.

Record state := mkState { world : W; log : list event }.

Definition M (A : Type) := state -> outcome A * state.

Definition ret {A} (a : A) : M A := fun st => (Return a, st).

Definition raise {A} (e : exn) : M A := fun st => (Raise e, st).

Definition bind {A B} (m : M A) (k : A -> M B) : M B :=
  fun st =>
    match m st with
    | (Return a, st') => k a st'
    | (Raise e, st') => (Raise e, st')
    end.

(** [try: body except <class> as e: handler]. *)
Definition try_except {A} (body : M A) (catches : exn -> bool)
           (handler : exn -> M A) : M A :=
  fun st =>
    match body st with
    | (Raise e, st') => if catches e then handler e st' else (Raise e, st')
    | r => r
    end.

(** A pure computation that may raise. *)
Definition lift {A} (o : outcome A) : M A := fun st => (o, st).

(** Issue request [r], whose answer is computed by [f], and record it. *)
Definition call {A} (r : request) (f : W -> outcome A * W) : M A :=
  fun st =>
    let (o, w') := f (world st) in
    (o, {| world := w'; log := log st ++ [Request r] |}).

(** Invoke the callback and record the invocation. *)
Definition invoke (on_progress : Callback W) (i total : nat) (video : Video.t)
  : M unit :=
  fun st =>
    let (o, w') := on_progress i total video (world st) in
    (o, {| world := w'; log := log st ++ [Progress i total video] |}).

End Monad.
Arguments state W : clear implicits.
Arguments M W A : clear implicits.

Declare Scope py_scope.
Delimit Scope py_scope with py.
Notation "x <- m ;; k" := (bind m (fun x => k))
  (at level 61, m at next level, right associativity) : py_scope.
Notation "' p <- m ;; k" := (bind m (fun x => let p := x in k))
  (at level 61, p pattern, m at next level, right associativity) : py_scope.
Local Open Scope py_scope.

(** Exception classes named in [except] clauses. *)
Definition is_Exception (e : exn) : bool := true.
Definition is_HttpError (e : exn) : bool :=
  match e with HttpError _ => true | _ => false end.

(** [str(error)]. *)
Definition str_of_exn (e : exn) : string :=
  match e with
  | HttpError msg => msg
  | KeyError key => key
  | OtherException msg => msg
  end.

(** ** The service layer *)

Section YouTubeService.
Context {W : Type}.

(** [reduce(function, iterable, initial)] for an effectful [function]. *)
Fixpoint reduce {A B} (function : A -> B -> M W A) (iterable : list B)
         (initial : A) : M W A :=
  match iterable with
  | [] => ret initial
  | x :: rest => acc <- function initial x ;; reduce function rest acc
  end.

(** A list comprehension [[f(x) for x in xs]] for an effectful [f]. *)
Fixpoint comprehension {A B} (f : A -> M W B) (xs : list A) : M W (list B) :=
  match xs with
  | [] => ret []
  | x :: rest =>
      y <- f x ;;
      ys <- comprehension f rest ;;
      ret (y :: ys)
  end.

(** [enumerate(xs, start)]. *)
Definition enumerate {A} (xs : list A) (start : nat) : list (nat * A) :=
  combine (seq start (length xs)) xs.

(** [items[0] if items else None]. *)
Definition first_item (items : list channel_item) : option channel_item :=
  if truthy items then Some (hd [] items) else None.

Definition lookup_channel_by_handle (youtube : Service W) (handle : string)
  : M W (option channel_item) :=
  try_except
    (response <- call (ChannelsList_forHandle handle)
                      (channels_list_forHandle youtube handle) ;;
     let items := get_default (channel_items response) [] in
     ret (first_item items))
    is_Exception
    (fun e => ret None).

Definition lookup_channel_by_username (youtube : Service W) (username : string)
  : M W (option channel_item) :=
  try_except
    (response <- call (ChannelsList_forUsername username)
                      (channels_list_forUsername youtube username) ;;
     let items := get_default (channel_items response) [] in
     ret (first_item items))
    is_Exception
    (fun e => ret None).

Definition clean_handle (handle : string) : string :=
  PyStr.lstrip "@" handle.

(** Truthiness of an [Optional[Dict]]: [None] and the empty dict are
    falsy. *)
Definition truthy_result (result : option channel_item) : bool :=
  match result with
  | Some d => truthy d
  | None => false
  end.

(** [result["id"]]. *)
Definition subscript_id (result : option channel_item) : outcome string :=
  match result with
  | Some d =>
      match dict_get "id" d with
      | Some v => Return v
      | None => Raise (KeyError "id")
      end
  | None => Raise (OtherException "'NoneType' object is not subscriptable")
  end.

(** The body of [for strategy in lookup_strategies]. *)
Fixpoint try_strategies (youtube : Service W)
         (strategies : list (Service W -> string -> M W (option channel_item)))
         (handle cleaned : string) : M W (option Channel.t) :=
  match strategies with
  | [] => ret None
  | strategy :: rest =>
      result <- strategy youtube cleaned ;;
      if truthy_result result then
        id <- lift (subscript_id result) ;;
        ret (Some (Channel.mk id handle))
      else try_strategies youtube rest handle cleaned
  end.

Definition lookup_strategies
  : list (Service W -> string -> M W (option channel_item)) :=
  [lookup_channel_by_handle; lookup_channel_by_username].

Definition find_channel (youtube : Service W) (handle : string)
  : M W (option Channel.t) :=
  let cleaned := clean_handle handle in
  try_strategies youtube lookup_strategies handle cleaned.

Definition fetch_video_page (youtube : Service W) (channel_id : string)
           (page_token : option string) : M W search_response :=
  call (SearchList channel_id 50 page_token)
       (search_list youtube channel_id 50 page_token).

(** [[item["id"]["videoId"] for item in items]]; a missing key raises. *)
Fixpoint video_ids_of (its : list search_item) : outcome (list string) :=
  match its with
  | [] => Return []
  | item :: rest =>
      match item_id item with
      | None => Raise (KeyError "id")
      | Some rid =>
          match videoId rid with
          | None => Raise (KeyError "videoId")
          | Some v =>
              match video_ids_of rest with
              | Return vs => Return (v :: vs)
              | Raise e => Raise e
              end
          end
      end
  end.

Definition extract_video_ids (response : search_response)
  : outcome (list string) :=
  video_ids_of (get_default (items response) []).

Definition is_None {A} (o : option A) : bool :=
  match o with None => true | Some _ => false end.

Definition accumulate_videos (youtube : Service W) (channel_id : string)
           (acc : list string * option string) (_ : nat)
  : M W (list string * option string) :=
  let '(video_ids, page_token) := acc in
  if is_None page_token && truthy video_ids then
    ret acc
  else
    response <- fetch_video_page youtube channel_id page_token ;;
    new_ids <- lift (extract_video_ids response) ;;
    let next_token := nextPageToken response in
    ret (video_ids ++ new_ids, next_token).

(** [range(n)]. *)
Definition range (n : nat) : list nat := seq 0 n.

Definition fetch_all_video_ids (youtube : Service W) (channel_id : string)
  : M W (list string) :=
  r <- reduce (accumulate_videos youtube channel_id) (range 100) ([], None) ;;
  ret (fst r).

Definition fetch_channel_videos (youtube : Service W) (channel_id : string)
  : M W (list Video.t) :=
  video_ids <- fetch_all_video_ids youtube channel_id ;;
  ret (map Video.mk video_ids).

Definition is_quota_exceeded_error (error : exn) : bool :=
  let error_str := str_of_exn error in
  PyStr.contains "quotaExceeded" error_str
  || PyStr.contains "quota" (PyStr.lower error_str).

Definition like_video (youtube : Service W) (video : Video.t) : M W LikeResult :=
  try_except
    (_ <- call (VideosRate (Video.id video) "like")
               (videos_rate youtube (Video.id video) "like") ;;
     ret (mkLikeResult (Video.id video) true None false))
    is_HttpError
    (fun error =>
       let quota_exceeded := is_quota_exceeded_error error in
       ret (mkLikeResult (Video.id video) false (Some (str_of_exn error))
                         quota_exceeded)).

Definition like_videos (youtube : Service W) (videos : list Video.t)
  : M W (list LikeResult) :=
  comprehension (like_video youtube) videos.

(** The [for i, video in enumerate(videos, 1)] loop with its [break]. *)
Fixpoint like_loop (youtube : Service W) (on_progress : Callback W)
         (total : nat) (todo : list (nat * Video.t))
         (results : list LikeResult) : M W (list LikeResult) :=
  match todo with
  | [] => ret results
  | (i, video) :: rest =>
      result <- like_video youtube video ;;
      let results := results ++ [result] in
      _ <- invoke on_progress i total video ;;
      if quota_exceeded result then ret results
      else like_loop youtube on_progress total rest results
  end.

Definition like_videos_with_callback (youtube : Service W)
           (videos : list Video.t) (on_progress : Callback W)
  : M W (list LikeResult) :=
  let results := [] in
  let total := length videos in
  like_loop youtube on_progress total (enumerate videos 1) results.

Definition like_all_channel_videos (youtube : Service W) (handle : string)
           (on_progress : option (Callback W))
  : M W (option Channel.t * list Video.t * list LikeResult) :=
  channel <- find_channel youtube handle ;;
  match channel with
  | None => ret (None, [], [])
  | Some channel =>
      videos <- fetch_channel_videos youtube (Channel.id channel) ;;
      results <- match on_progress with
                 | Some on_progress =>
                     like_videos_with_callback youtube videos on_progress
                 | None => like_videos youtube videos
                 end ;;
      ret (Some channel, videos, results)
  end.

End YouTubeService.

(** ** Vocabulary of the statements *)

(** The reading of "the string contains [word], case-insensitively": some
    contiguous part of [s] equals [word] up to the case of its letters. *)
Definition contains_ci (word s : string) : Prop :=
  exists pre mid post,
    s = (pre ++ mid ++ post)%string /\ PyStr.lower mid = PyStr.lower word.

(** The state after one more logged event. *)
Definition logged {W : Type} (w : W) (st : state W) (ev : event) : state W :=
  {| world := w; log := log st ++ [ev] |}.

(** What a lookup strategy makes of the answer of its endpoint: the first
    item, if the call returned and there is one. *)
Definition lookup_result (ans : outcome channels_response)
  : option channel_item :=
  match ans with
  | Return response => first_item (get_default (channel_items response) [])
  | Raise _ => None
  end.

(** A page request for [channel_id], of the fixed page size. *)
Definition is_search_request (channel_id : string) (ev : event) : bool :=
  match ev with
  | Request (SearchList c 50 _) => String.eqb c channel_id
  | _ => false
  end.

(** The [rate] endpoint answers every request with success or with an
    [HttpError]: every like attempt yields a [LikeResult]. *)
Definition http_only {W : Type} (youtube : Service W) : Prop :=
  forall id rating w,
    match fst (videos_rate youtube id rating w) with
    | Return _ => True
    | Raise e => is_HttpError e = true
    end.

(** Along the run of [like_videos] on [videos] from world [w], every
    [rate] request is answered with success or with an [HttpError]: no like
    attempt raises an exception that [like_video] does not catch. *)
Fixpoint rate_answers_http {W : Type} (youtube : Service W)
         (videos : list Video.t) (w : W) : Prop :=
  match videos with
  | [] => True
  | video :: rest =>
      let ans := videos_rate youtube (Video.id video) "like" w in
      match fst ans with
      | Return _ => True
      | Raise e => is_HttpError e = true
      end
      /\ rate_answers_http youtube rest (snd ans)
  end.

(** The callback returns normally, whatever it is told. *)
Definition callback_returns {W : Type} (on_progress : Callback W) : Prop :=
  forall i total video w, fst (on_progress i total video w) = Return tt.

(** The ids of the [videos().rate] requests of a log, in order. *)
Definition rate_requests (evs : list event) : list string :=
  flat_map (fun ev => match ev with
                      | Request (VideosRate id _) => [id]
                      | _ => []
                      end) evs.

(** The callback invocations of a log, in order. *)
Definition progress_calls (evs : list event) : list (nat * nat * Video.t) :=
  flat_map (fun ev => match ev with
                      | Progress i total v => [(i, total, v)]
                      | _ => []
                      end) evs.

(** The [search().list] requests of a log, in order. *)
Definition search_requests (evs : list event) : list request :=
  flat_map (fun ev => match ev with
                      | Request (SearchList c n t) => [SearchList c n t]
                      | _ => []
                      end) evs.

(** The events of one round of the callback loop. *)
Definition round_events (total : nat) (iv : nat * Video.t) : list event :=
  [Request (VideosRate (Video.id (snd iv)) "like"); Progress (fst iv) total (snd iv)].

(** The quota flag is raised by the last result of [rs] and by no earlier
    one. *)
Fixpoint quota_only_last (rs : list LikeResult) : bool :=
  match rs with
  | [] => false
  | r :: rest =>
      match rest with
      | [] => quota_exceeded r
      | _ => negb (quota_exceeded r) && quota_only_last rest
      end
  end.


Section AttemptsDef.
Context {W : Type} (youtube : Service W) (on_progress : Callback W)
        (total : nat).

(** [attempts i videos st results st']: liking [videos] one after the
    other from state [st], the callback being told counts [i], [i+1],
    ..., yields [results] and ends in [st']; every attempt produces a
    [LikeResult] and every callback invocation returns. *)
Inductive attempts
  : nat -> list Video.t -> state W -> list LikeResult -> state W -> Prop :=
| attempts_nil i st : attempts i [] st [] st
| attempts_cons i video videos st result st1 st2 results st3 :
    like_video youtube video st = (Return result, st1) ->
    invoke on_progress i total video st1 = (Return tt, st2) ->
    attempts (S i) videos st2 results st3 ->
    attempts i (video :: videos) st (result :: results) st3.

End AttemptsDef.

(** ** Sample services *)

Definition quota_message : string :=
  "<HttpError 403 when requesting videos/rate returned: The request cannot be completed because you have exceeded your quota.>".

Definition hampter_item : channel_item :=
  [("kind", "youtube#channel"); ("id", "UC123")]%string.

Definition search_hit (v : string) : search_item :=
  {| item_id := Some {| videoId := Some v |} |}.

(** A channel [@the_hampter] with three videos, known by handle only; the
    world counts the likes accepted so far, and the [rate] endpoint
    accepts [allowance] of them before it answers with the quota error. *)
Definition hampter_service (allowance : nat) : Service nat := {|
  channels_list_forHandle h w :=
    (Return {| channel_items :=
                 if String.eqb h "the_hampter" then Some [hampter_item]
                 else None |}, w);
  channels_list_forUsername u w :=
    (Raise (HttpError "<HttpError 404 when requesting channels: not found>"), w);
  search_list c n t w :=
    (Return {| items := Some [search_hit "v1"; search_hit "v2"; search_hit "v3"];
               nextPageToken := None |}, w);
  videos_rate id rating w :=
    if Nat.ltb w allowance then (Return tt, S w)
    else (Raise (HttpError quota_message), w)
|}.

(** A channel without videos: the only page is empty and has no cursor. *)
Definition empty_channel_service : Service unit := {|
  channels_list_forHandle h w :=
    (Return {| channel_items := Some [hampter_item] |}, w);
  channels_list_forUsername u w := (Return {| channel_items := None |}, w);
  search_list c n t w := (Return {| items := Some []; nextPageToken := None |}, w);
  videos_rate id rating w := (Return tt, w)
|}.

(** A search endpoint that hands out a cursor with every page. *)
Definition endless_service : Service unit := {|
  channels_list_forHandle h w := (Return {| channel_items := None |}, w);
  channels_list_forUsername u w := (Return {| channel_items := None |}, w);
  search_list c n t w :=
    (Return {| items := Some [search_hit "v"]; nextPageToken := Some "next"%string |}, w);
  videos_rate id rating w := (Return tt, w)
|}.

Definition silent : Callback nat := fun i total video w => (Return tt, w).

Definition three_videos : list Video.t :=
  [Video.mk "v1"; Video.mk "v2"; Video.mk "v3"].

Definition start : state nat := {| world := 0; log := [] |}.

Ltac run_attempts :=
  repeat (eapply attempts_cons; [reflexivity | reflexivity | ]);
  apply attempts_nil.

From Stdlib Require Decimal DecimalString.

(** ** Vocabulary for pagination and for the two like paths *)

(** [n] copies of the [@] sign. *)
Fixpoint at_signs (n : nat) : string :=
  match n with
  | 0 => EmptyString
  | S m => String "@" (at_signs m)
  end.

(** The video id an item of a search page carries, if both keys are
    there. *)
Definition item_video_id (item : search_item) : option string :=
  match item_id item with
  | Some rid => videoId rid
  | None => None
  end.

Section PageRunDef.
Context {W : Type} (youtube : Service W) (channel_id : string).

(** [page_run token st pages final st']: asking for the page at [token]
    and then following the cursors, the endpoint delivers [pages] (the ids
    of each page, in order); every page but the last carries a cursor, the
    last one carries [final]; the world ends in [st']. *)
Inductive page_run
  : option string -> state W -> list (list string) -> option string
    -> state W -> Prop :=
| page_run_one token st response ids st1 :
    fetch_video_page youtube channel_id token st = (Return response, st1) ->
    extract_video_ids response = Return ids ->
    page_run token st [ids] (nextPageToken response) st1
| page_run_next token st response ids st1 next pages final st2 :
    fetch_video_page youtube channel_id token st = (Return response, st1) ->
    extract_video_ids response = Return ids ->
    nextPageToken response = Some next ->
    page_run (Some next) st1 pages final st2 ->
    page_run token st (ids :: pages) final st2.

End PageRunDef.

(** The results up to and including the first one with the quota flag. *)
Fixpoint upto_quota (rs : list LikeResult) : list LikeResult :=
  match rs with
  | [] => []
  | r :: rest => if quota_exceeded r then [r] else r :: upto_quota rest
  end.

(** A callback that returns and leaves the remote world as it is. *)
Definition world_neutral {W : Type} (on_progress : Callback W) : Prop :=
  forall i total video w, on_progress i total video w = (Return tt, w).

Definition is_channel_lookup (ev : event) : bool :=
  match ev with
  | Request (ChannelsList_forHandle _) => true
  | Request (ChannelsList_forUsername _) => true
  | _ => false
  end.

Definition is_any_search (ev : event) : bool :=
  match ev with
  | Request (SearchList _ _ _) => true
  | _ => false
  end.

(** A like request or a callback invocation. *)
Definition is_like_event (ev : event) : bool :=
  match ev with
  | Request (VideosRate _ _) => true
  | Progress _ _ _ => true
  | _ => false
  end.

(** ** More sample services *)

(** Three videos on two pages: the first page hands out the cursor
    ["p2"]. *)
Definition two_page_service : Service unit := {|
  channels_list_forHandle h w :=
    (Return {| channel_items := Some [hampter_item] |}, w);
  channels_list_forUsername u w := (Return {| channel_items := None |}, w);
  search_list c n t w :=
    (match t with
     | None => Return {| items := Some [search_hit "v1"; search_hit "v2"];
                         nextPageToken := Some "p2"%string |}
     | Some _ => Return {| items := Some [search_hit "v3"];
                           nextPageToken := None |}
     end, w);
  videos_rate id rating w := (Return tt, w)
|}.

(** The first page is delivered, the request for the second raises. *)
Definition flaky_service : Service unit := {|
  channels_list_forHandle h w :=
    (Return {| channel_items := Some [hampter_item] |}, w);
  channels_list_forUsername u w := (Return {| channel_items := None |}, w);
  search_list c n t w :=
    (match t with
     | None => Return {| items := Some [search_hit "v1"; search_hit "v2"];
                         nextPageToken := Some "p2"%string |}
     | Some _ => Raise (HttpError quota_message)
     end, w);
  videos_rate id rating w := (Return tt, w)
|}.

(** The connection is lost after [n] likes: the [rate] call then raises
    an exception that is not an [HttpError]. *)
Definition offline_after (n : nat) : Service nat := {|
  channels_list_forHandle h w :=
    (Return {| channel_items := Some [hampter_item] |}, w);
  channels_list_forUsername u w := (Return {| channel_items := None |}, w);
  search_list c n t w := (Return {| items := Some []; nextPageToken := None |}, w);
  videos_rate id rating w :=
    if Nat.ltb w n then (Return tt, S w)
    else (Raise (OtherException "Unable to find the server at youtube.googleapis.com"), w)
|}.

Definition start_unit : state unit := {| world := tt; log := [] |}.

(** ** Python helpers of the front-ends *)

(** [str(n)] for a non-negative [int]. *)
Definition str_int (n : nat) : string :=
  DecimalString.NilEmpty.string_of_uint (Nat.to_uint n).

(** [str(e)] for any exception: a [KeyError] shows the [repr] of its
    key. *)
Definition str_exception (e : exn) : string :=
  match e with
  | KeyError key => ("'" ++ key ++ "'")%string
  | _ => str_of_exn e
  end.

(** [sum(1 for r in results if r.success)]. *)
Definition count_successful (results : list LikeResult) : nat :=
  length (filter success results).

(** [any(r.quota_exceeded for r in results)]. *)
Definition any_quota_exceeded (results : list LikeResult) : bool :=
  existsb quota_exceeded results.

(** [s * n] for a [str]. *)
Fixpoint str_repeat (s : string) (n : nat) : string :=
  match n with
  | 0 => EmptyString
  | S m => (s ++ str_repeat s m)%string
  end.

(** The newline character of ["\n"]. *)
Definition newline : string := String (ascii_of_nat 10) EmptyString.

(** ** The web front-end (app.py) *)

Module App.

Inductive ProcessStatus :=
| IDLE | AUTHENTICATING | FETCHING | LIKING | COMPLETED | ERROR.

Record ProgressState := mkProgressState {
  status : ProcessStatus;
  message : string;
  total_videos : nat;
  liked_videos : nat;
  current_video_id : string;
  channel_id : string;
  channel_name : string
}.

Definition initial : ProgressState :=
  {| status := IDLE;
     message := "Ready to start";
     total_videos := 0;
     liked_videos := 0;
     current_video_id := "";
     channel_id := "";
     channel_name := "" |}.

Definition with_status (self : ProgressState) (status : ProcessStatus)
           (message : string) : ProgressState :=
  {| status := status;
     message := message;
     total_videos := total_videos self;
     liked_videos := liked_videos self;
     current_video_id := current_video_id self;
     channel_id := channel_id self;
     channel_name := channel_name self |}.

Definition with_channel (self : ProgressState) (channel_id channel_name : string)
  : ProgressState :=
  {| status := status self;
     message := message self;
     total_videos := total_videos self;
     liked_videos := liked_videos self;
     current_video_id := current_video_id self;
     channel_id := channel_id;
     channel_name := channel_name |}.

Definition with_videos (self : ProgressState) (total : nat) : ProgressState :=
  {| status := status self;
     message := message self;
     total_videos := total;
     liked_videos := liked_videos self;
     current_video_id := current_video_id self;
     channel_id := channel_id self;
     channel_name := channel_name self |}.

Definition with_progress (self : ProgressState) (liked : nat)
           (video_id : string) : ProgressState :=
  {| status := status self;
     message := message self;
     total_videos := total_videos self;
     liked_videos := liked;
     current_video_id := video_id;
     channel_id := channel_id self;
     channel_name := channel_name self |}.

(** The world of the web front-end: the remote API and the snapshot held
    by the global [progress_manager]. *)
Record World (A : Type) := mkWorld {
  remote : A;
  snapshot : ProgressState
}.
Arguments mkWorld {A} _ _.
Arguments remote {A} _.
Arguments snapshot {A} _.

Section Workflow.
Context {A : Type}.

(** [progress_manager.get_state()]. *)
Definition get_state : M (World A) ProgressState :=
  fun st => (Return (snapshot (world st)), st).

(** [progress_manager.update_state(new_state)]. *)
Definition update_state (new_state : ProgressState) : M (World A) unit :=
  fun st =>
    (Return tt,
     {| world := mkWorld (remote (world st)) new_state; log := log st |}).

(** [progress_manager.reset()]. *)
Definition reset : M (World A) unit :=
  fun st =>
    (Return tt, {| world := mkWorld (remote (world st)) initial; log := log st |}).

(** An endpoint of the remote API, seen from the front-end's world. *)
Definition on_remote_call {R : Type} (f : A -> outcome R * A) (w : World A)
  : outcome R * World A :=
  let (o, a) := f (remote w) in (o, mkWorld a (snapshot w)).

(** The [youtube] object, seen from the front-end's world. *)
Definition on_remote (youtube : Service A) : Service (World A) :=
  {| channels_list_forHandle h := on_remote_call (channels_list_forHandle youtube h);
     channels_list_forUsername u := on_remote_call (channels_list_forUsername youtube u);
     search_list c n t := on_remote_call (search_list youtube c n t);
     videos_rate id rating := on_remote_call (videos_rate youtube id rating) |}.

(** [get_authenticated_service(config)]: the consent flow is part of the
    remote world; it hands out the service object or raises. *)
Definition get_authenticated_service
           (authenticate : A -> outcome (Service A) * A)
  : M (World A) (Service A) :=
  fun st =>
    let (o, a) := authenticate (remote (world st)) in
    (o, {| world := mkWorld a (snapshot (world st)); log := log st |}).

(** The progress callback of [run_liking_workflow]. *)
Definition on_progress : Callback (World A) :=
  fun current total video w =>
    let state := snapshot w in
    let new_state := with_progress state current (Video.id video) in
    let new_state :=
      {| status := LIKING;
         message := ("Liked video " ++ str_int current ++ " of "
                     ++ str_int total)%string;
         total_videos := total_videos new_state;
         liked_videos := current;
         current_video_id := Video.id video;
         channel_id := channel_id new_state;
         channel_name := channel_name new_state |} in
    (Return tt, mkWorld (remote w) new_state).

Definition completed_message (successful total : nat) : string :=
  ("Successfully liked " ++ str_int successful ++ "/" ++ str_int total
   ++ " videos! ğŸ¹")%string.

Definition run_liking_workflow (authenticate : A -> outcome (Service A) * A)
           (channel_username : string) : M (World A) unit :=
  try_except
    (state <- get_state ;;
     _ <- update_state
            (with_channel
               (with_status state AUTHENTICATING "Authenticating with YouTube...")
               "" channel_username) ;;
     youtube <- get_authenticated_service authenticate ;;
     state <- get_state ;;
     _ <- update_state
            (with_status state FETCHING
                         ("Finding channel: " ++ channel_username)%string) ;;
     r <- like_all_channel_videos (on_remote youtube) channel_username
                                  (Some on_progress) ;;
     let '(channel, videos, results) := r in
     match channel with
     | None =>
         state <- get_state ;;
         update_state
           (with_status state ERROR
                        ("Channel not found: " ++ channel_username)%string)
     | Some channel =>
         state <- get_state ;;
         _ <- update_state
                (with_videos
                   (with_channel state (Channel.id channel)
                                 (Channel.handle channel))
                   (length videos)) ;;
         let successful := count_successful results in
         state <- get_state ;;
         update_state
           (with_status state COMPLETED
                        (completed_message successful (length videos)))
     end)
    is_Exception
    (fun e =>
       state <- get_state ;;
       update_state
         (with_status state ERROR ("Error: " ++ str_exception e)%string)).

End Workflow.

End App.

(** An action of the front-end's world that leaves the snapshot alone. *)
Definition keeps_snapshot {A R : Type} (m : M (App.World A) R) : Prop :=
  forall st, App.snapshot (world (snd (m st))) = App.snapshot (world st).

(** The snapshot that [run_liking_workflow] has written when it starts
    the workflow proper. *)
Definition fetching_snapshot (s : App.ProgressState) (channel_username : string)
  : App.ProgressState :=
  App.with_status
    (App.with_channel
       (App.with_status s App.AUTHENTICATING "Authenticating with YouTube...")
       "" channel_username)
    App.FETCHING ("Finding channel: " ++ channel_username)%string.

(** The consent flow succeeds and hands out the sample service. *)
Definition sample_login (allowance : nat) (a : nat)
  : outcome (Service nat) * nat :=
  (Return (hampter_service allowance), a).

(** No credentials file: the consent flow cannot start. *)
Definition no_credentials (a : nat) : outcome (Service nat) * nat :=
  (Raise (OtherException "No client_secret_*.json file found in the current directory. Please download your OAuth 2.0 credentials from Google Cloud Console."), a).

Definition app_start : state (App.World nat) :=
  {| world := App.mkWorld 0 App.initial; log := [] |}.

(** ** The desktop front-end (gui.py) *)

Module Gui.

(** The messages of the worker thread to the window, by their tag. *)
Inductive message :=
| Msg_status (text : string)
| Msg_log (text : string)
| Msg_progress (current total : nat)
| Msg_stats (total liked : nat)
| Msg_channel_link (url : string)
| Msg_error (text : string)
| Msg_complete.

(** The three kinds of message box, with title and text. *)
Inductive dialog :=
| showwarning (title text : string)
| showinfo (title text : string)
| showerror (title text : string).

(** The world of the desktop front-end: the remote side (API, consent
    flow, screen) and the queue of messages not yet handled. *)
Record World (A : Type) := mkWorld {
  remote : A;
  message_queue : list message
}.
Arguments mkWorld {A} _ _.
Arguments remote {A} _.
Arguments message_queue {A} _.

Section Workflow.
Context {A : Type}.

(** [self.message_queue.put(msg)]. *)
Definition put (msg : message) (w : World A) : World A :=
  mkWorld (remote w) (message_queue w ++ [msg]).

Definition queue_put (msg : message) : M (World A) unit :=
  fun st => (Return tt, {| world := put msg (world st); log := log st |}).

Definition on_remote_call {R : Type} (f : A -> outcome R * A) (w : World A)
  : outcome R * World A :=
  let (o, a) := f (remote w) in (o, mkWorld a (message_queue w)).

Definition on_remote (youtube : Service A) : Service (World A) :=
  {| channels_list_forHandle h := on_remote_call (channels_list_forHandle youtube h);
     channels_list_forUsername u := on_remote_call (channels_list_forUsername youtube u);
     search_list c n t := on_remote_call (search_list youtube c n t);
     videos_rate id rating := on_remote_call (videos_rate youtube id rating) |}.

Definition get_authenticated_service
           (authenticate : A -> outcome (Service A) * A)
  : M (World A) (Service A) :=
  fun st =>
    let (o, a) := authenticate (remote (world st)) in
    (o, {| world := mkWorld a (message_queue (world st)); log := log st |}).

(** A [messagebox] call: it belongs to the screen and may raise. *)
Definition show (messagebox : dialog -> A -> outcome unit * A) (d : dialog)
  : M (World A) unit :=
  fun st =>
    let (o, a) := messagebox d (remote (world st)) in
    (o, {| world := mkWorld a (message_queue (world st)); log := log st |}).

(** The progress callback of [_run_workflow]. *)
Definition on_progress : Callback (World A) :=
  fun current total video w =>
    let w := put (Msg_progress current total) w in
    let w := put (Msg_stats total current) w in
    let w := put (Msg_status ("👍 Liking videos... " ++ str_int current ++ "/" ++ str_int total)%string) w in
    let w := if Nat.eqb (current mod 5) 0
             then put (Msg_log ("Liked " ++ str_int current ++ "/" ++ str_int total ++ " videos...")%string) w
             else w in
    (Return tt, w).

Definition _run_workflow (authenticate : A -> outcome (Service A) * A)
           (messagebox : dialog -> A -> outcome unit * A) (channel : string)
  : M (World A) unit :=
  try_except
    (_ <- queue_put (Msg_status "🔐 Authenticating with YouTube...") ;;
     _ <- queue_put (Msg_log "Starting authentication...") ;;
     youtube <- get_authenticated_service authenticate ;;
     _ <- queue_put (Msg_log "✅ Authentication successful!") ;;
     _ <- queue_put (Msg_status ("🔍 Finding channel: " ++ channel)%string) ;;
     _ <- queue_put (Msg_log ("Searching for channel: " ++ channel)%string) ;;
     r <- like_all_channel_videos (on_remote youtube) channel (Some on_progress) ;;
     let '(channel_obj, videos, results) := r in
     match channel_obj with
     | None => queue_put (Msg_error ("Channel not found: " ++ channel)%string)
     | Some channel_obj =>
         let channel_url := ("https://www.youtube.com/" ++ Channel.handle channel_obj)%string in
         _ <- queue_put (Msg_channel_link channel_url) ;;
         _ <- queue_put (Msg_log ("✅ Found channel: " ++ Channel.handle channel_obj)%string) ;;
         _ <- queue_put (Msg_log ("📺 Found " ++ str_int (length videos) ++ " videos")%string) ;;
         _ <- queue_put (Msg_stats (length videos) 0) ;;
         _ <- queue_put (Msg_progress (length results) (length videos)) ;;
         let quota_exceeded := any_quota_exceeded results in
         let successful := count_successful results in
         _ <- queue_put (Msg_log (str_repeat "=" 40)) ;;
         if quota_exceeded then
           _ <- queue_put (Msg_log "⚠️ Stopped: YouTube API quota exceeded") ;;
           _ <- queue_put (Msg_log ("Successfully liked " ++ str_int successful ++ "/" ++ str_int (length videos) ++ " videos")%string) ;;
           _ <- queue_put (Msg_log "Quota resets daily at midnight Pacific Time") ;;
           _ <- queue_put (Msg_status "⚠️ Quota Exceeded - Try again tomorrow!") ;;
           _ <- queue_put Msg_complete ;;
           show messagebox
                (showwarning "Quota Exceeded ⚠️"
                   ("YouTube API quota exceeded!" ++ newline ++ newline ++ "Successfully liked " ++ str_int successful ++ "/" ++ str_int (length videos) ++ " videos." ++ newline ++ newline ++ "💡 The quota resets daily at midnight Pacific Time." ++ newline ++ "Try again tomorrow to like the remaining videos!")%string)
         else
           _ <- queue_put (Msg_log "✅ Completed!") ;;
           _ <- queue_put (Msg_log ("Successfully liked " ++ str_int successful ++ "/" ++ str_int (length videos) ++ " videos")%string) ;;
           _ <- queue_put (Msg_status "✅ Completed! 🎉🐹🎊") ;;
           _ <- queue_put Msg_complete ;;
           show messagebox
                (showinfo "Success! 🐹"
                   ("Successfully liked " ++ str_int successful ++ "/" ++ str_int (length videos) ++ " videos!" ++ newline ++ newline ++ "Hampter is happy! 🎉")%string)
     end)
    is_Exception
    (fun e =>
       let error_msg := ("Error: " ++ str_exception e)%string in
       _ <- queue_put (Msg_error error_msg) ;;
       show messagebox (showerror "Error" error_msg)).

End Workflow.

(** A message that ends a run for the window: it re-enables the start
    button. *)
Definition is_terminal (msg : message) : bool :=
  match msg with
  | Msg_error _ | Msg_complete => true
  | _ => false
  end.

(** The last [stats] message of a list, if there is one. *)
Fixpoint last_stats (msgs : list message) : option (nat * nat) :=
  match msgs with
  | [] => None
  | msg :: rest =>
      match last_stats rest with
      | Some s => Some s
      | None =>
          match msg with
          | Msg_stats total liked => Some (total, liked)
          | _ => None
          end
      end
  end.

(** The messages of a run up to the start of the workflow proper. *)
Definition opening (channel : string) : list message :=
  [Msg_status "🔐 Authenticating with YouTube...";
   Msg_log "Starting authentication...";
   Msg_log "✅ Authentication successful!";
   Msg_status ("🔍 Finding channel: " ++ channel)%string;
   Msg_log ("Searching for channel: " ++ channel)%string].

End Gui.

(** The consent flow and the message boxes of the samples. *)
Definition quiet_box (d : Gui.dialog) (a : nat) : outcome unit * nat :=
  (Return tt, a).

(** A message box that cannot be shown from the worker thread. *)
Definition failing_box (d : Gui.dialog) (a : nat) : outcome unit * nat :=
  (Raise (OtherException "main thread is not in main loop"), a).

Definition gui_start : state (Gui.World nat) :=
  {| world := Gui.mkWorld 0 []; log := [] |}.

(** A list of messages that ends with a terminal one. *)
Definition ends_terminal (msgs : list Gui.message) : Prop :=
  exists front final, msgs = front ++ [final] /\ Gui.is_terminal final = true.

(** An action that can only append to the queue. *)
Definition appends {A R : Type} (m : M (Gui.World A) R) : Prop :=
  forall st, exists msgs,
    Gui.message_queue (world (snd (m st)))
    = Gui.message_queue (world st) ++ msgs.

(** An action that, when it returns, has appended messages the last of
    which is terminal. *)
Definition returns_terminal {A R : Type} (m : M (Gui.World A) R) : Prop :=
  forall st r st', m st = (Return r, st') ->
    exists msgs,
      Gui.message_queue (world st') = Gui.message_queue (world st) ++ msgs
      /\ ends_terminal msgs.

(** ** The first scripts (liker.py, username.py) *)

(** Truthiness of an [Optional[str]]. *)
Definition truthy_token (token : option string) : bool :=
  match token with
  | Some s => PyStr.truthy s
  | None => false
  end.

(** [response["items"]]. *)
Definition subscript_items (response : search_response)
  : outcome (list search_item) :=
  match items response with
  | Some its => Return its
  | None => Raise (KeyError "items")
  end.

Module Liker.

Section Script.
Context {W : Type}.

(** The [while True] loop of [get_channel_videos].  The loop has no bound
    of its own; [fuel] bounds the rounds the model follows, and [None]
    says that the loop has not come to its [break] within them. *)
Fixpoint get_channel_videos_loop (fuel : nat) (youtube : Service W)
         (channel_id : string) (all_videos : list string)
         (next_page_token : option string) : M W (option (list string)) :=
  match fuel with
  | 0 => ret None
  | S fuel =>
      response <- call (SearchList channel_id 50 next_page_token)
                       (search_list youtube channel_id 50 next_page_token) ;;
      its <- lift (subscript_items response) ;;
      videos <- lift (video_ids_of its) ;;
      let all_videos := all_videos ++ videos in
      let next_page_token := nextPageToken response in
      if negb (truthy_token next_page_token) then ret (Some all_videos)
      else get_channel_videos_loop fuel youtube channel_id all_videos
                                   next_page_token
  end.

Definition get_channel_videos (fuel : nat) (youtube : Service W)
           (channel_id : string) : M W (option (list string)) :=
  let all_videos := [] in
  let next_page_token := None in
  get_channel_videos_loop fuel youtube channel_id all_videos next_page_token.

End Script.

End Liker.

Module Username.

Section Script.
Context {W : Type}.

(** [response.get("items", [])[0]]. *)
Definition first_of (its : list channel_item) : outcome channel_item :=
  match its with
  | channel :: _ => Return channel
  | [] => Raise (OtherException "list index out of range")
  end.

Definition get_channel_id (youtube : Service W) (username : string)
  : M W (option string) :=
  response <- call (ChannelsList_forUsername username)
                   (channels_list_forUsername youtube username) ;;
  channel <- lift (first_of (get_default (channel_items response) [])) ;;
  if truthy channel then
    id <- lift (subscript_id (Some channel)) ;;
    ret (Some id)
  else ret None.

End Script.

End Username.

(** A search endpoint whose every page carries a non-empty cursor. *)
Definition always_more {W : Type} (youtube : Service W) (channel_id : string)
  : Prop :=
  forall token w, exists response w',
    search_list youtube channel_id 50 token w = (Return response, w')
    /\ (exists its ids, items response = Some its
                        /\ video_ids_of its = Return ids)
    /\ truthy_token (nextPageToken response) = true.

(** Every page of the search endpoint has its [items] key, and no cursor
    is the empty string. *)
Definition well_formed_pages {W : Type} (youtube : Service W)
           (channel_id : string) : Prop :=
  forall token w response w',
    search_list youtube channel_id 50 token w = (Return response, w') ->
    items response <> None /\ nextPageToken response <> Some ""%string.

(** ** Strings: substring search and lower-casing *)

Local Open Scope string_scope.

Section StringFacts.

Lemma prefix_app (a b : string) :
  String.prefix a b = true <-> exists c, b = a ++ c.
Proof.
  revert b; induction a as [|x a IH]; intros b.
  - split; [intros _; now exists b | now destruct b].
  - destruct b as [|y b]; simpl.
    + split; [discriminate | intros [c Hc]; discriminate].
    + destruct (ascii_dec x y) as [->|Hxy].
      * rewrite IH. split; intros [c Hc]; exists c.
        -- now rewrite Hc.
        -- simpl in Hc. now inversion Hc.
      * split; [discriminate | intros [c Hc]; simpl in Hc].
        inversion Hc; congruence.
Qed.

Lemma contains_app (needle hay : string) :
  PyStr.contains needle hay = true <->
  exists pre post, hay = pre ++ needle ++ post.
Proof.
  induction hay as [|y hay IH].
  - change (PyStr.contains needle "") with (String.prefix needle "" || false).
    rewrite orb_false_r, prefix_app. split.
    + intros [c Hc]. now exists "", c.
    + intros (pre & post & H). destruct pre; simpl in H.
      * now exists post.
      * discriminate.
  - change (PyStr.contains needle (String y hay))
      with (String.prefix needle (String y hay) || PyStr.contains needle hay).
    rewrite orb_true_iff, prefix_app, IH. split.
    + intros [[c Hc] | (pre & post & H)].
      * now exists "", c.
      * exists (String y pre), post. simpl. now rewrite H.
    + intros (pre & post & H). destruct pre as [|x pre]; simpl in H.
      * left. now exists post.
      * right. inversion H. now exists pre, post.
Qed.

Lemma lower_app (a b : string) :
  PyStr.lower (a ++ b) = PyStr.lower a ++ PyStr.lower b.
Proof. induction a as [|x a IH]; simpl; [reflexivity | now rewrite IH]. Qed.

Lemma lower_split (s a b : string) :
  PyStr.lower s = a ++ b ->
  exists s1 s2, s = s1 ++ s2 /\ PyStr.lower s1 = a /\ PyStr.lower s2 = b.
Proof.
  revert s; induction a as [|x a IH]; intros s H; simpl in H.
  - now exists "", s.
  - destruct s as [|y s]; simpl in H; [discriminate|].
    inversion H as [[Hx Hs]]. destruct (IH _ Hs) as (s1 & s2 & -> & H1 & H2).
    exists (String y s1), s2. simpl. now rewrite H1, H2.
Qed.

Lemma lstrip_fixed (chars s : string) :
  PyStr.lstrip chars (PyStr.lstrip chars s) = PyStr.lstrip chars s.
Proof.
  induction s as [|a s IH]; simpl; [reflexivity|].
  destruct (PyStr.mem a chars) eqn:E; [exact IH|].
  simpl. now rewrite E.
Qed.

End StringFacts.

Lemma contains_lower_ci (word s : string) :
  PyStr.contains (PyStr.lower word) (PyStr.lower s) = true <-> contains_ci word s.
Proof.
  rewrite contains_app. split.
  - intros (pre & post & H).
    apply lower_split in H as (s1 & s2 & -> & H1 & H2).
    apply lower_split in H2 as (s3 & s4 & -> & H3 & H4).
    now exists s1, s3, s4.
  - intros (pre & mid & post & -> & H).
    exists (PyStr.lower pre), (PyStr.lower post).
    now rewrite !lower_app, H.
Qed.

Lemma quotaExceeded_has_quota (s : string) :
  PyStr.contains "quotaExceeded" s = true ->
  PyStr.contains "quota" (PyStr.lower s) = true.
Proof.
  rewrite !contains_app. intros (pre & post & ->).
  exists (PyStr.lower pre), ("exceeded" ++ PyStr.lower post).
  now rewrite !lower_app.
Qed.

Lemma is_quota_exceeded_error_ci (e : exn) :
  is_quota_exceeded_error e = true <-> contains_ci "quota" (str_of_exn e).
Proof.
  unfold is_quota_exceeded_error. rewrite <- contains_lower_ci.
  change (PyStr.lower "quota") with "quota".
  rewrite orb_true_iff. split; [|now right].
  intros [H|H]; [now apply quotaExceeded_has_quota | exact H].
Qed.

(** ** Handle normalisation *)

(** C8: [clean_handle] makes the [@] prefix irrelevant and is idempotent:
    for every handle [h], cleaning ["@" ++ h] gives what cleaning [h] gives,
    cleaning twice is cleaning once, and a doubled prefix ["@@" ++ h] is
    stripped as well. *)
Theorem clean_handle_prefix_idempotent (h : string) :
  clean_handle ("@" ++ h) = clean_handle h /\
  clean_handle (clean_handle h) = clean_handle h /\
  clean_handle ("@@" ++ h) = clean_handle h.
Proof.
  unfold clean_handle. repeat split.
  - apply lstrip_fixed.
Qed.

Local Open Scope list_scope.

(** ** One like attempt *)

Section LikeVideo.
Context {W : Type} (youtube : Service W).

(** What [like_video] does, by the answer of the [rate] endpoint. *)
Lemma like_video_cases (video : Video.t) (st : state W) :
  let vid := Video.id video in
  let ans := videos_rate youtube vid "like" (world st) in
  let st' := logged (snd ans) st (Request (VideosRate vid "like")) in
  like_video youtube video st =
  match fst ans with
  | Return _ => (Return (mkLikeResult vid true None false), st')
  | Raise (HttpError msg) =>
      (Return (mkLikeResult vid false (Some msg)
                            (is_quota_exceeded_error (HttpError msg))), st')
  | Raise e => (Raise e, st')
  end.
Proof.
  unfold like_video, try_except, bind, call, ret, logged. cbn zeta.
  destruct (videos_rate youtube (Video.id video) "like" (world st))
    as [[u|[msg|key|msg]] w']; reflexivity.
Qed.

(** Whatever the endpoint answers, exactly one request is logged. *)
Lemma like_video_log (video : Video.t) (st : state W) :
  log (snd (like_video youtube video st)) =
  log st ++ [Request (VideosRate (Video.id video) "like")].
Proof.
  rewrite like_video_cases. cbn zeta.
  destruct (fst _) as [u|[msg|key|msg]]; reflexivity.
Qed.

End LikeVideo.

(** C10: every [LikeResult] that [like_video] produces carries the id of
    the input video; a successful result has no error and no quota flag; a
    quota-flagged result is a failure whose error is the string form of the
    raised [HttpError]; and the quota flag is set exactly when that string
    contains the word "quota", case-insensitively. *)
Theorem like_video_result_invariant {W : Type} (youtube : Service W)
        (video : Video.t) (st st' : state W) (r : LikeResult) :
  like_video youtube video st = (Return r, st') ->
  let ans := fst (videos_rate youtube (Video.id video) "like" (world st)) in
  video_id r = Video.id video /\
  (success r = true -> error r = None /\ quota_exceeded r = false) /\
  (quota_exceeded r = true ->
   success r = false /\
   exists msg, ans = Raise (HttpError msg) /\ error r = Some msg) /\
  (quota_exceeded r = true <->
   exists msg, ans = Raise (HttpError msg) /\ contains_ci "quota" msg).
Proof.
  rewrite like_video_cases. cbn zeta.
  destruct (fst (videos_rate youtube (Video.id video) "like" (world st)))
    as [u|[msg|key|msg]]; intros H; inversion H; subst; clear H; cbn.
  - repeat split; try discriminate.
    intros (msg & Hm & _); discriminate.
  - repeat split; try discriminate.
    + exists msg; split; reflexivity.
    + intros Hq. exists msg. split; [reflexivity|].
      now apply (is_quota_exceeded_error_ci (HttpError msg)).
    + intros (msg' & Hm & Hc). inversion Hm; subst.
      now apply (is_quota_exceeded_error_ci (HttpError msg')).
Qed.

(** ** The like executors *)

Section Attempts.
Context {W : Type} (youtube : Service W) (on_progress : Callback W)
        (total : nat).

Lemma invoke_log i video (st st' : state W) (o : outcome unit) :
  invoke on_progress i total video st = (o, st') ->
  log st' = log st ++ [Progress i total video].
Proof.
  unfold invoke. destruct (on_progress i total video (world st)) as [o' w'].
  intros H; inversion H; reflexivity.
Qed.

Lemma like_video_video_id video (st st' : state W) r :
  like_video youtube video st = (Return r, st') ->
  video_id r = Video.id video.
Proof.
  rewrite like_video_cases. cbn zeta.
  destruct (fst _) as [u|[msg|key|msg]]; intros H; inversion H; reflexivity.
Qed.

Lemma attempts_shape i videos st results st' :
  attempts youtube on_progress total i videos st results st' ->
  length results = length videos /\
  map video_id results = map Video.id videos /\
  log st' = log st ++ flat_map (round_events total)
                               (combine (seq i (length videos)) videos).
Proof.
  induction 1 as [i st | i video videos st result st1 st2 results st3
                           Hlike Hcb _ (IHlen & IHids & IHlog)].
  - cbn. now rewrite app_nil_r.
  - cbn [length map seq combine flat_map]. repeat split.
    + now rewrite IHlen.
    + now rewrite IHids, (like_video_video_id _ _ _ _ Hlike).
    + rewrite IHlog, (invoke_log _ _ _ _ _ Hcb).
      pose proof (like_video_log youtube video st) as Hl.
      rewrite Hlike in Hl. cbn [snd] in Hl. rewrite Hl.
      unfold round_events. cbn [fst snd]. now rewrite <- !app_assoc.
Qed.

(** The loop stops after the first quota-flagged result, whatever is
    left to do. *)
Lemma like_loop_stops i videos st results st' :
  attempts youtube on_progress total i videos st results st' ->
  quota_only_last results = true ->
  forall todo acc,
    like_loop youtube on_progress total
              (combine (seq i (length videos)) videos ++ todo) acc st
    = (Return (acc ++ results), st').
Proof.
  induction 1 as [i st | i video videos st result st1 st2 results st3
                           Hlike Hcb Hrest IH]; intros Hq todo acc.
  - discriminate.
  - cbn [length seq combine app like_loop]. unfold bind at 1.
    rewrite Hlike. unfold bind at 1. rewrite Hcb.
    cbn [quota_only_last] in Hq. destruct results as [|r' results].
    + rewrite Hq. inversion Hrest; subst. reflexivity.
    + apply andb_true_iff in Hq as [Hn Hq].
      apply negb_true_iff in Hn. rewrite Hn.
      rewrite (IH Hq todo (acc ++ [result])). now rewrite <- app_assoc.
Qed.


End Attempts.

(** Against a [rate] endpoint that only succeeds or raises [HttpError],
    and with a callback that returns, every sequence of videos can be
    attempted to its end. *)
Lemma attempts_total {W : Type} (youtube : Service W)
      (on_progress : Callback W) (total : nat) :
  http_only youtube -> callback_returns on_progress ->
  forall videos i st,
  exists results st',
    attempts youtube on_progress total i videos st results st'.
Proof.
  intros Hhttp Hcb videos.
  induction videos as [|video videos IH]; intros i st.
  - exists [], st. constructor.
  - pose proof (like_video_cases youtube video st) as Hc. cbn zeta in Hc.
    pose proof (Hhttp (Video.id video) "like"%string (world st)) as Hh.
    destruct (like_video youtube video st) as [[r|e] st1] eqn:Hlike.
    + pose proof (Hcb i total video (world st1)) as Hret.
      destruct (invoke on_progress i total video st1) as [o st2] eqn:Hinv.
      assert (o = Return tt) as ->.
      { unfold invoke in Hinv.
        destruct (on_progress i total video (world st1)) as [o' w'].
        inversion Hinv; subst. exact Hret. }
      destruct (IH (S i) st2) as (rs & st3 & Hrest).
      exists (r :: rs), st3. econstructor; eassumption.
    + exfalso. destruct (fst _) as [u|[m|m|m]]; inversion Hc; discriminate.
Qed.

Section LogFacts.

Lemma enumerate_app {A} (xs ys : list A) (start : nat) :
  enumerate (xs ++ ys) start =
  enumerate xs start ++ enumerate ys (start + length xs).
Proof.
  unfold enumerate. revert start.
  induction xs as [|x xs IH]; intros start; cbn [length app seq combine].
  - now rewrite Nat.add_0_r.
  - rewrite length_app in IH. rewrite length_app, IH.
    now rewrite Nat.add_succ_r.
Qed.

Lemma enumerate_fst {A} (xs : list A) (start : nat) :
  map fst (enumerate xs start) = seq start (length xs).
Proof.
  unfold enumerate. revert start.
  induction xs as [|x xs IH]; intros start; cbn; [|rewrite IH]; reflexivity.
Qed.

Lemma enumerate_snd {A} (xs : list A) (start : nat) :
  map snd (enumerate xs start) = xs.
Proof.
  unfold enumerate. revert start.
  induction xs as [|x xs IH]; intros start; cbn; [|rewrite IH]; reflexivity.
Qed.

Lemma progress_calls_rounds (total : nat) (ivs : list (nat * Video.t)) :
  progress_calls (flat_map (round_events total) ivs) =
  map (fun iv => (fst iv, total, snd iv)) ivs.
Proof. induction ivs as [|iv ivs IH]; cbn; [|rewrite <- IH]; reflexivity. Qed.

Lemma rate_requests_rounds (total : nat) (ivs : list (nat * Video.t)) :
  rate_requests (flat_map (round_events total) ivs) =
  map Video.id (map snd ivs).
Proof. induction ivs as [|iv ivs IH]; cbn; [|rewrite <- IH]; reflexivity. Qed.

Lemma rate_requests_map (videos : list Video.t) :
  rate_requests
    (map (fun v => Request (VideosRate (Video.id v) "like")) videos)
  = map Video.id videos.
Proof. induction videos as [|v vs IH]; cbn; [|rewrite <- IH]; reflexivity. Qed.

End LogFacts.

(** C1: when the video at position [k] (counted from 1) is the first whose
    like attempt yields a quota-exceeded result, [like_videos_with_callback]
    returns exactly the [k] results of the first [k] attempts, has invoked
    the callback exactly [k] times, and has sent like requests for the
    first [k] videos only. *)
Theorem like_videos_with_callback_stops_at_quota {W : Type}
        (youtube : Service W) (on_progress : Callback W)
        (videos : list Video.t) (k : nat) (st st' : state W)
        (results : list LikeResult) :
  1 <= k <= length videos ->
  attempts youtube on_progress (length videos) 1 (firstn k videos)
           st results st' ->
  quota_only_last results = true ->
  like_videos_with_callback youtube videos on_progress st = (Return results, st')
  /\ length results = k
  /\ map video_id results = map Video.id (firstn k videos)
  /\ exists delta,
      log st' = log st ++ delta
      /\ length (progress_calls delta) = k
      /\ rate_requests delta = map Video.id (firstn k videos).
Proof.
  intros [Hk1 Hk] Hrun Hq.
  pose proof (attempts_shape _ _ _ _ _ _ _ _ Hrun) as (Hlen & Hids & Hlog).
  assert (Hfk : length (firstn k videos) = k) by (rewrite length_firstn; lia).
  split; [|split; [|split]].
  - unfold like_videos_with_callback. cbn zeta.
    rewrite <- (firstn_skipn k videos) at 2. rewrite enumerate_app.
    unfold enumerate at 1.
    now rewrite (like_loop_stops _ _ _ _ _ _ _ _ Hrun Hq).
  - congruence.
  - exact Hids.
  - eexists. split; [exact Hlog|]. fold (enumerate (firstn k videos) 1). split.
    + now rewrite progress_calls_rounds, length_map, <- (length_map fst),
        enumerate_fst, length_seq.
    + now rewrite rate_requests_rounds, enumerate_snd.
Qed.


Lemma http_only_rate_answers {W : Type} (youtube : Service W) :
  http_only youtube ->
  forall videos w, rate_answers_http youtube videos w.
Proof.
  intros Hhttp videos. induction videos as [|v vs IH]; intros w; cbn.
  - exact I.
  - split; [apply Hhttp | apply IH].
Qed.

Lemma like_videos_run {W : Type} (youtube : Service W)
      (videos : list Video.t) (st : state W) :
  rate_answers_http youtube videos (world st) ->
  exists results st',
    like_videos youtube videos st = (Return results, st')
    /\ map video_id results = map Video.id videos
    /\ log st' = log st
                 ++ map (fun v => Request (VideosRate (Video.id v) "like")) videos.
Proof.
  unfold like_videos. revert st.
  induction videos as [|v vs IH]; intros st Hhttp.
  - exists [], st. cbn. unfold ret. now rewrite app_nil_r.
  - cbn [rate_answers_http] in Hhttp. cbn zeta in Hhttp.
    destruct Hhttp as [Hh Hrest].
    cbn [comprehension]. unfold bind at 1.
    rewrite like_video_cases. cbn zeta.
    set (ans := videos_rate youtube (Video.id v) "like" (world st)) in *.
    set (st1 := logged (snd ans) st (Request (VideosRate (Video.id v) "like"))).
    destruct (IH st1 Hrest) as (rs & st2 & Hrs & Hids & Hlog).
    destruct (fst ans) as [u|[m|k|m]]; try discriminate Hh.
    + eexists (_ :: rs), st2. unfold bind at 1. rewrite Hrs. unfold ret.
      cbn [map video_id]. repeat split.
      * now rewrite Hids.
      * rewrite Hlog. unfold st1, logged. cbn [log]. now rewrite <- app_assoc.
    + eexists (_ :: rs), st2. unfold bind at 1. rewrite Hrs. unfold ret.
      cbn [map video_id]. repeat split.
      * now rewrite Hids.
      * rewrite Hlog. unfold st1, logged. cbn [log]. now rewrite <- app_assoc.
Qed.

(** C5, as amended: when every like request of the run is answered with
    success or with an [HttpError], so that every attempt yields a
    [LikeResult], [like_videos] sends exactly one like request per video,
    in input order, and returns one result per video in input order; a
    result with the quota flag does not stop it. *)
Theorem like_videos_attempts_all {W : Type} (youtube : Service W)
        (videos : list Video.t) (st : state W) :
  rate_answers_http youtube videos (world st) ->
  exists results st' delta,
    like_videos youtube videos st = (Return results, st')
    /\ length results = length videos
    /\ map video_id results = map Video.id videos
    /\ log st' = log st ++ delta
    /\ length delta = length videos
    /\ rate_requests delta = map Video.id videos.
Proof.
  intros Hhttp.
  destruct (like_videos_run youtube videos st Hhttp) as (rs & st' & Hrun & Hids & Hlog).
  exists rs, st', (map (fun v => Request (VideosRate (Video.id v) "like")) videos).
  repeat split; try assumption.
  - now rewrite <- (length_map video_id), Hids, length_map.
  - apply length_map.
  - apply rate_requests_map.
Qed.

(** ** Channel resolution *)

Section FindChannel.
Context {W : Type} (youtube : Service W).

Lemma lookup_channel_by_handle_cases (handle : string) (st : state W) :
  let ans := channels_list_forHandle youtube handle (world st) in
  lookup_channel_by_handle youtube handle st =
  (Return (lookup_result (fst ans)),
   logged (snd ans) st (Request (ChannelsList_forHandle handle))).
Proof.
  unfold lookup_channel_by_handle, try_except, bind, call, ret, logged.
  cbn zeta. destruct (channels_list_forHandle youtube handle (world st))
    as [[resp|e] w']; reflexivity.
Qed.

Lemma lookup_channel_by_username_cases (username : string) (st : state W) :
  let ans := channels_list_forUsername youtube username (world st) in
  lookup_channel_by_username youtube username st =
  (Return (lookup_result (fst ans)),
   logged (snd ans) st (Request (ChannelsList_forUsername username))).
Proof.
  unfold lookup_channel_by_username, try_except, bind, call, ret, logged.
  cbn zeta. destruct (channels_list_forUsername youtube username (world st))
    as [[resp|e] w']; reflexivity.
Qed.

(** [find_channel], strategy by strategy. *)
Lemma find_channel_cases (handle : string) (st : state W) :
  find_channel youtube handle st =
  let cleaned := clean_handle handle in
  let (o1, st1) := lookup_channel_by_handle youtube cleaned st in
  match o1 with
  | Raise e => (Raise e, st1)
  | Return r1 =>
      if truthy_result r1 then
        match subscript_id r1 with
        | Return id => (Return (Some (Channel.mk id handle)), st1)
        | Raise e => (Raise e, st1)
        end
      else
        let (o2, st2) := lookup_channel_by_username youtube cleaned st1 in
        match o2 with
        | Raise e => (Raise e, st2)
        | Return r2 =>
            if truthy_result r2 then
              match subscript_id r2 with
              | Return id => (Return (Some (Channel.mk id handle)), st2)
              | Raise e => (Raise e, st2)
              end
            else (Return None, st2)
        end
  end.
Proof.
  unfold find_channel, lookup_strategies. cbn [try_strategies]. cbn zeta.
  unfold bind at 1.
  destruct (lookup_channel_by_handle youtube (clean_handle handle) st)
    as [[r1|e1] st1]; [|reflexivity].
  destruct (truthy_result r1).
  - unfold bind, lift, ret. destruct (subscript_id r1); reflexivity.
  - unfold bind at 1.
    destruct (lookup_channel_by_username youtube (clean_handle handle) st1)
      as [[r2|e2] st2]; [|reflexivity].
    destruct (truthy_result r2); [|reflexivity].
    unfold bind, lift, ret. destruct (subscript_id r2); reflexivity.
Qed.

Lemma dict_get_truthy (key : string) (d : channel_item) (v : string) :
  dict_get key d = Some v -> truthy d = true.
Proof. destruct d; [discriminate | reflexivity]. Qed.

End FindChannel.


(** C9: when a lookup strategy produces a match, [find_channel] returns a
    [Channel] whose id is the identifier of the item returned by the first
    strategy that matched, and whose handle is the input handle as given,
    not its cleaned form. *)
Theorem find_channel_keeps_original_handle {W : Type} (youtube : Service W)
        (handle : string) (st st' : state W) (item : channel_item)
        (cid : string) :
  let cleaned := clean_handle handle in
  dict_get "id" item = Some cid ->
  lookup_channel_by_handle youtube cleaned st = (Return (Some item), st')
  \/ (exists r1 st1,
         lookup_channel_by_handle youtube cleaned st = (Return r1, st1)
         /\ truthy_result r1 = false
         /\ lookup_channel_by_username youtube cleaned st1
            = (Return (Some item), st')) ->
  find_channel youtube handle st
  = (Return (Some (Channel.mk cid handle)), st').
Proof.
  cbn zeta. intros Hid Hmatch. rewrite find_channel_cases. cbn zeta.
  pose proof (dict_get_truthy _ _ _ Hid) as Ht.
  destruct Hmatch as [H1 | (r1 & st1 & H1 & Hf & H2)]; rewrite H1.
  - cbn [truthy_result subscript_id]. now rewrite Ht, Hid.
  - rewrite Hf, H2. cbn [truthy_result subscript_id]. now rewrite Ht, Hid.
Qed.

(** C4: when neither lookup strategy produces a match,
    [like_all_channel_videos] returns the triple (no channel, no videos, no
    results) without raising, having sent the two lookups and nothing
    else: no page request and no like request. *)
Theorem like_all_channel_videos_not_found {W : Type} (youtube : Service W)
        (handle : string) (on_progress : option (Callback W))
        (st st1 st2 : state W) (r1 r2 : option channel_item) :
  let cleaned := clean_handle handle in
  lookup_channel_by_handle youtube cleaned st = (Return r1, st1) ->
  truthy_result r1 = false ->
  lookup_channel_by_username youtube cleaned st1 = (Return r2, st2) ->
  truthy_result r2 = false ->
  like_all_channel_videos youtube handle on_progress st
  = (Return (None, [], []), st2)
  /\ exists delta,
      log st2 = log st ++ delta
      /\ delta = [Request (ChannelsList_forHandle cleaned);
                  Request (ChannelsList_forUsername cleaned)]
      /\ search_requests delta = []
      /\ rate_requests delta = []
      /\ progress_calls delta = [].
Proof.
  cbn zeta. intros H1 Hf1 H2 Hf2. split.
  - unfold like_all_channel_videos, bind at 1.
    rewrite find_channel_cases. cbn zeta. now rewrite H1, Hf1, H2, Hf2.
  - eexists. split; [|repeat split].
    rewrite lookup_channel_by_handle_cases in H1.
    rewrite lookup_channel_by_username_cases in H2.
    cbn zeta in H1, H2. inversion H1; subst. inversion H2; subst.
    cbn. now rewrite <- app_assoc.
Qed.

(** ** Video enumeration *)

Section FetchAll.
Context {W : Type} (youtube : Service W) (channel_id : string).

(** One step of the accumulator sends at most one page request, and
    nothing else. *)
Lemma accumulate_videos_log (acc : list string * option string) (n : nat)
      (st : state W) :
  exists delta,
    log (snd (accumulate_videos youtube channel_id acc n st)) = log st ++ delta
    /\ length delta <= 1
    /\ forallb (is_search_request channel_id) delta = true.
Proof.
  destruct acc as [video_ids page_token]. unfold accumulate_videos.
  destruct (is_None page_token && truthy video_ids).
  - exists []. cbn. rewrite app_nil_r. repeat split. lia.
  - exists [Request (SearchList channel_id 50 page_token)].
    split; [|split; [cbn; lia | cbn; now rewrite String.eqb_refl]].
    unfold bind, fetch_video_page, call, lift, ret.
    destruct (search_list youtube channel_id 50 page_token (world st))
      as [[resp|e] w']; [|reflexivity].
    destruct (extract_video_ids resp); reflexivity.
Qed.

(** [reduce] over [xs] sends at most [length xs] page requests. *)
Lemma reduce_accumulate_log (xs : list nat)
      (acc : list string * option string) (st : state W) :
  exists delta,
    log (snd (reduce (accumulate_videos youtube channel_id) xs acc st))
    = log st ++ delta
    /\ length delta <= length xs
    /\ forallb (is_search_request channel_id) delta = true.
Proof.
  revert acc st. induction xs as [|x xs IH]; intros acc st.
  - exists []. cbn. rewrite app_nil_r. repeat split. lia.
  - cbn [reduce]. unfold bind at 1.
    destruct (accumulate_videos_log acc x st) as (d1 & Hd1 & Hl1 & Hs1).
    destruct (accumulate_videos youtube channel_id acc x st) as [[acc'|e] st1].
    + destruct (IH acc' st1) as (d2 & Hd2 & Hl2 & Hs2).
      exists (d1 ++ d2). cbn [snd] in Hd1. rewrite Hd2, Hd1.
      rewrite <- app_assoc, length_app, forallb_app, Hs1, Hs2.
      cbn [length]. repeat split. lia.
    + exists d1. cbn [snd] in *. repeat split; try assumption.
      cbn [length]. lia.
Qed.

(** Once some ids are collected and the cursor is gone, the remaining
    rounds of [reduce] do nothing. *)
Lemma reduce_accumulate_finished (xs : list nat) (video_ids : list string)
      (st : state W) :
  truthy video_ids = true ->
  reduce (accumulate_videos youtube channel_id) xs (video_ids, None) st
  = (Return (video_ids, None), st).
Proof.
  intros Ht. induction xs as [|x xs IH]; [reflexivity|].
  cbn [reduce]. unfold bind at 1, accumulate_videos.
  cbn [is_None andb]. rewrite Ht. exact IH.
Qed.

End FetchAll.

(** C3: whatever the search endpoint answers, [fetch_all_video_ids] ends
    (with a list of ids or with the exception of a failed call) after at
    most 100 page requests, and sends nothing but page requests for the
    given channel. *)
Theorem fetch_all_video_ids_at_most_100_pages {W : Type}
        (youtube : Service W) (channel_id : string) (st : state W) :
  exists o st' delta,
    fetch_all_video_ids youtube channel_id st = (o, st')
    /\ log st' = log st ++ delta
    /\ length (search_requests delta) <= 100
    /\ length delta <= 100
    /\ forallb (is_search_request channel_id) delta = true.
Proof.
  destruct (reduce_accumulate_log youtube channel_id (range 100) ([], None) st)
    as (delta & Hlog & Hlen & Hsearch).
  unfold range in Hlen. rewrite length_seq in Hlen.
  assert (Hsub : length (search_requests delta) <= length delta).
  { clear. induction delta as [|ev d IH]; [reflexivity|].
    change (search_requests (ev :: d))
      with (match ev with
            | Request (SearchList c n t) => [SearchList c n t]
            | _ => []
            end ++ search_requests d).
    rewrite length_app. destruct ev as [[h|u|c n t|i r]|i t v]; cbn; lia. }
  unfold fetch_all_video_ids, bind.
  destruct (reduce (accumulate_videos youtube channel_id) (range 100)
                   ([], None) st) as [[r|e] st1]; cbn [snd] in Hlog.
  - exists (Return (fst r)), st1, delta. repeat split; try assumption; lia.
  - exists (Raise e), st1, delta. repeat split; try assumption; lia.
Qed.

(** ** Runs of the sample services *)

Lemma hampter_service_http_only (allowance : nat) :
  http_only (hampter_service allowance).
Proof.
  intros id rating w. cbn [hampter_service videos_rate].
  destruct (Nat.ltb w allowance); [exact I | reflexivity].
Qed.

Lemma clean_handle_examples :
  clean_handle "@@the_hampter" = "the_hampter"%string
  /\ clean_handle "@the_hampter" = clean_handle "the_hampter".
Proof. split; reflexivity. Qed.

Lemma like_video_result_invariant_witness :
  let r := mkLikeResult "v1" false (Some quota_message) true in
  like_video (hampter_service 0) (Video.mk "v1") start
  = (Return r, {| world := 0; log := [Request (VideosRate "v1" "like")] |})
  /\ (quota_exceeded r = true <->
      exists msg,
        fst (videos_rate (hampter_service 0) "v1" "like" 0)
        = Raise (HttpError msg) /\ contains_ci "quota" msg).
Proof.
  cbn zeta. split; [reflexivity|].
  apply (like_video_result_invariant
           (hampter_service 0) (Video.mk "v1") start
           {| world := 0; log := [Request (VideosRate "v1" "like")] |}
           (mkLikeResult "v1" false (Some quota_message) true)).
  reflexivity.
Defined.

Lemma like_videos_with_callback_stops_at_quota_witness :
  exists results st',
    like_videos_with_callback (hampter_service 1) three_videos silent start
    = (Return results, st')
    /\ length results = 2
    /\ map video_id results = ["v1"; "v2"]%string
    /\ exists delta,
        log st' = log start ++ delta
        /\ length (progress_calls delta) = 2
        /\ rate_requests delta = ["v1"; "v2"]%string.
Proof.
  eexists. eexists.
  apply (like_videos_with_callback_stops_at_quota
           (hampter_service 1) silent three_videos 2 start).
  - cbn. lia.
  - cbn [firstn three_videos length]. run_attempts.
  - reflexivity.
Defined.


Lemma like_videos_attempts_all_witness :
  exists results st' delta,
    like_videos (hampter_service 1) three_videos start = (Return results, st')
    /\ length results = 3
    /\ map video_id results = ["v1"; "v2"; "v3"]%string
    /\ log st' = log start ++ delta
    /\ length delta = 3
    /\ rate_requests delta = ["v1"; "v2"; "v3"]%string.
Proof.
  apply (like_videos_attempts_all (hampter_service 1) three_videos start).
  cbn. repeat split.
Defined.

(** C5, as first stated, fails: when the connection is lost after the
    first like, the second attempt raises an exception that is not an
    [HttpError]; [like_videos] raises it, returns no result at all and
    sends no request for the third video. *)
Lemma like_videos_attempts_all_counterexample :
  like_videos (offline_after 1) three_videos start
  = (Raise (OtherException "Unable to find the server at youtube.googleapis.com"),
     {| world := 1;
        log := [Request (VideosRate "v1" "like");
                Request (VideosRate "v2" "like")] |})
  /\ ~ (exists results st',
          like_videos (offline_after 1) three_videos start
          = (Return results, st')
          /\ length results = length three_videos).
Proof.
  split; [reflexivity|].
  intros (results & st' & Hrun & _). discriminate Hrun.
Qed.

(** With one like left in the quota, the bulk path still tries all three
    videos: two results carry the quota flag. *)
Lemma like_videos_goes_past_quota :
  fst (like_videos (hampter_service 1) three_videos start)
  = Return [mkLikeResult "v1" true None false;
            mkLikeResult "v2" false (Some quota_message) true;
            mkLikeResult "v3" false (Some quota_message) true].
Proof. reflexivity. Qed.


Lemma find_channel_keeps_original_handle_witness :
  find_channel (hampter_service 0) "@the_hampter" start
  = (Return (Some (Channel.mk "UC123" "@the_hampter")),
     {| world := 0; log := [Request (ChannelsList_forHandle "the_hampter")] |}).
Proof.
  apply (find_channel_keeps_original_handle
           (hampter_service 0) "@the_hampter" start _ hampter_item "UC123").
  - reflexivity.
  - left. reflexivity.
Defined.

Lemma like_all_channel_videos_not_found_witness :
  like_all_channel_videos (hampter_service 0) "@ghost" (Some silent) start
  = (Return (None, [], []),
     {| world := 0;
        log := [Request (ChannelsList_forHandle "ghost");
                Request (ChannelsList_forUsername "ghost")] |}).
Proof.
  apply (like_all_channel_videos_not_found
           (hampter_service 0) "@ghost" (Some silent) start
           {| world := 0; log := [Request (ChannelsList_forHandle "ghost")] |}
           _ None None); reflexivity.
Defined.

(** C2: on a channel without videos the first page has no cursor, and yet
    [fetch_all_video_ids] asks for that same page a hundred times. *)
Theorem fetch_all_video_ids_empty_channel_refetches :
  fetch_all_video_ids empty_channel_service "UC123" {| world := tt; log := [] |}
  = (Return [],
     {| world := tt;
        log := repeat (Request (SearchList "UC123" 50 None)) 100 |}).
Proof. vm_compute. reflexivity. Qed.

(** The cap is reached when every page carries a cursor. *)
Lemma fetch_all_video_ids_cap_reached :
  length (log (snd (fetch_all_video_ids endless_service "UC123"
                                        {| world := tt; log := [] |})))
  = 100.
Proof. vm_compute. reflexivity. Qed.

(** With videos on the page, one request is enough. *)
Lemma fetch_all_video_ids_single_page :
  fetch_all_video_ids (hampter_service 0) "UC123" start
  = (Return ["v1"; "v2"; "v3"]%string,
     {| world := 0; log := [Request (SearchList "UC123" 50 None)] |}).
Proof. vm_compute. reflexivity. Qed.

(** ** Further properties of the service layer *)

(** X1: [clean_handle] removes the leading [@] signs and nothing else: the
    handle is some [@] signs followed by its cleaned form, and the cleaned
    form does not start with [@]. *)
Theorem clean_handle_strips_leading_ats (h : string) :
  (exists n, h = (at_signs n ++ clean_handle h)%string)
  /\ forall rest, clean_handle h <> String "@" rest.
Proof.
  unfold clean_handle. induction h as [|a h [[n Hn] IH]]; cbn.
  - split; [now exists 0 | discriminate].
  - rewrite orb_false_r. destruct (Ascii.eqb a "@") eqn:E.
    + apply Ascii.eqb_eq in E. subst a. split; [|exact IH].
      exists (S n). cbn. now rewrite <- Hn.
    + split; [now exists 0|]. intros rest H. inversion H; subst.
      now rewrite Ascii.eqb_refl in E.
Qed.

(** X2: a lookup strategy never raises: whatever the endpoint does, it
    sends exactly one request and returns; its result is [None] when the
    call raised and the first item of the response (if any) otherwise. *)
Theorem lookup_strategies_swallow_errors {W : Type} (youtube : Service W)
        (name : string) (st : state W) :
  (exists r st',
      lookup_channel_by_handle youtube name st = (Return r, st')
      /\ log st' = log st ++ [Request (ChannelsList_forHandle name)]
      /\ match fst (channels_list_forHandle youtube name (world st)) with
         | Raise _ => r = None
         | Return response =>
             r = hd_error (get_default (channel_items response) [])
         end)
  /\ (exists r st',
         lookup_channel_by_username youtube name st = (Return r, st')
         /\ log st' = log st ++ [Request (ChannelsList_forUsername name)]
         /\ match fst (channels_list_forUsername youtube name (world st)) with
            | Raise _ => r = None
            | Return response =>
                r = hd_error (get_default (channel_items response) [])
            end).
Proof.
  split.
  - rewrite lookup_channel_by_handle_cases. cbn zeta.
    eexists. eexists. split; [reflexivity|]. split; [reflexivity|].
    destruct (fst _) as [resp|e]; [|reflexivity].
    cbn. now destruct (get_default (channel_items resp) []).
  - rewrite lookup_channel_by_username_cases. cbn zeta.
    eexists. eexists. split; [reflexivity|]. split; [reflexivity|].
    destruct (fst _) as [resp|e]; [|reflexivity].
    cbn. now destruct (get_default (channel_items resp) []).
Qed.

Lemma video_ids_of_spec (its : list search_item) (ids : list string) :
  video_ids_of its = Return ids <-> map item_video_id its = map Some ids.
Proof.
  revert ids. induction its as [|item its IH]; intros ids; cbn.
  - split.
    + intros H. now inversion H.
    + destruct ids; [reflexivity | discriminate].
  - unfold item_video_id at 1.
    destruct (item_id item) as [rid|]; [destruct (videoId rid) as [v|]|].
    + destruct (video_ids_of its) as [vs|e].
      * split.
        -- intros H. inversion H; subst. cbn. f_equal. now apply IH.
        -- destruct ids as [|i ids]; [discriminate|]. cbn. intros H.
           inversion H; subst. apply IH in H2. now inversion H2.
      * split; [discriminate|]. destruct ids as [|i ids]; [discriminate|].
        cbn. intros H. inversion H. apply IH in H2. discriminate.
    + split; [discriminate|]. now destruct ids.
    + split; [discriminate|]. now destruct ids.
Qed.

(** X3: [extract_video_ids] is all or nothing: it returns the ids of the
    items, one per item and in order, exactly when every item carries
    [id] and [videoId]; one item without them loses the whole page to a
    [KeyError].  A response without [items] gives the empty list. *)
Theorem extract_video_ids_all_or_nothing (response : search_response) :
  (forall ids,
      extract_video_ids response = Return ids
      <-> map item_video_id (get_default (items response) []) = map Some ids)
  /\ (forall e, extract_video_ids response = Raise e ->
                e = KeyError "id" \/ e = KeyError "videoId")
  /\ (items response = None -> extract_video_ids response = Return []).
Proof.
  unfold extract_video_ids. split; [|split].
  - intros ids. apply video_ids_of_spec.
  - generalize (get_default (items response) []) as its.
    induction its as [|item its IH]; cbn; intros e H; [discriminate|].
    destruct (item_id item) as [rid|]; [destruct (videoId rid) as [v|]|].
    + destruct (video_ids_of its) as [vs|e']; [discriminate|].
      inversion H; subst. now apply IH.
    + inversion H. now right.
    + inversion H. now left.
  - intros ->. reflexivity.
Qed.

(** X4: the test for ["quotaExceeded"] in [is_quota_exceeded_error] adds
    nothing: the function is the case-insensitive search for ["quota"]. *)
Theorem is_quota_exceeded_error_is_lowercase_search (e : exn) :
  is_quota_exceeded_error e
  = PyStr.contains "quota" (PyStr.lower (str_of_exn e)).
Proof.
  unfold is_quota_exceeded_error.
  destruct (PyStr.contains "quotaExceeded" (str_of_exn e)) eqn:E; [|reflexivity].
  cbn. symmetry. now apply quotaExceeded_has_quota.
Qed.

(** X5: [like_video] raises exactly when the [rate] call raises something
    that is not an [HttpError], and then it raises that exception; in
    every case it has sent one like request for the video. *)
Theorem like_video_raises_only_non_http {W : Type} (youtube : Service W)
        (video : Video.t) (st : state W) (e : exn) :
  (fst (like_video youtube video st) = Raise e
   <-> fst (videos_rate youtube (Video.id video) "like" (world st)) = Raise e
       /\ is_HttpError e = false)
  /\ log (snd (like_video youtube video st))
     = log st ++ [Request (VideosRate (Video.id video) "like")]
  /\ world (snd (like_video youtube video st))
     = snd (videos_rate youtube (Video.id video) "like" (world st)).
Proof.
  split; [|split; [apply like_video_log|]].
  - rewrite like_video_cases. cbn zeta.
    destruct (fst (videos_rate _ _ _ _)) as [u|[m|k|m]]; cbn; split.
    all: try (intros H; discriminate H).
    all: try (intros [H1 H2]; inversion H1; subst; discriminate H2).
    all: try (intros H; inversion H; subst; now split).
    all: intros [H1 H2]; inversion H1; reflexivity.
  - rewrite like_video_cases. cbn zeta.
    destruct (fst (videos_rate _ _ _ _)) as [u|[m|k|m]]; reflexivity.
Qed.

(** ** Following the cursors *)

Section PageRun.
Context {W : Type} (youtube : Service W) (channel_id : string).

Lemma fetch_video_page_log (token : option string) (st st1 : state W)
      (o : outcome search_response) :
  fetch_video_page youtube channel_id token st = (o, st1) ->
  log st1 = log st ++ [Request (SearchList channel_id 50 token)].
Proof.
  unfold fetch_video_page, call.
  destruct (search_list youtube channel_id 50 token (world st)) as [o' w'].
  intros H. inversion H. reflexivity.
Qed.

(** A round of the accumulator that is not finished asks for the page at
    its cursor and appends what it gets. *)
Lemma accumulate_videos_round (video_ids : list string)
      (token : option string) (n : nat) (st st1 : state W)
      (response : search_response) (ids : list string) :
  is_None token && truthy video_ids = false ->
  fetch_video_page youtube channel_id token st = (Return response, st1) ->
  extract_video_ids response = Return ids ->
  accumulate_videos youtube channel_id (video_ids, token) n st
  = (Return (video_ids ++ ids, nextPageToken response), st1).
Proof.
  intros Hactive Hfetch Hids. unfold accumulate_videos. rewrite Hactive.
  unfold bind at 1. rewrite Hfetch. unfold bind, lift, ret. now rewrite Hids.
Qed.

Lemma reduce_follows_page_run token st pages final st' :
  page_run youtube channel_id token st pages final st' ->
  forall (xs : list nat) (video_ids : list string),
    is_None token && truthy video_ids = false ->
    length pages <= length xs ->
    reduce (accumulate_videos youtube channel_id) xs (video_ids, token) st
    = reduce (accumulate_videos youtube channel_id)
             (skipn (length pages) xs) (video_ids ++ concat pages, final) st'.
Proof.
  induction 1 as [token st response ids st1 Hfetch Hids
                 | token st response ids st1 next pages final st2
                     Hfetch Hids Hnext Hrun IH];
    intros xs video_ids Hactive Hlen;
    (destruct xs as [|x xs]; [cbn in Hlen; lia|]);
    cbn [reduce]; unfold bind at 1;
    rewrite (accumulate_videos_round _ _ _ _ _ _ _ Hactive Hfetch Hids).
  - cbn. now rewrite app_nil_r.
  - rewrite Hnext. cbn [length] in Hlen.
    rewrite (IH xs (video_ids ++ ids) eq_refl ltac:(lia)).
    cbn [length skipn concat]. now rewrite <- app_assoc.
Qed.

Lemma page_run_log token st pages final st' :
  page_run youtube channel_id token st pages final st' ->
  exists delta,
    log st' = log st ++ delta
    /\ length delta = length pages
    /\ forallb (is_search_request channel_id) delta = true.
Proof.
  induction 1 as [token st response ids st1 Hfetch Hids
                 | token st response ids st1 next pages final st2
                     Hfetch Hids Hnext Hrun (d & Hd & Hl & Hs)].
  - exists [Request (SearchList channel_id 50 token)].
    rewrite (fetch_video_page_log _ _ _ _ Hfetch). cbn.
    now rewrite String.eqb_refl.
  - exists (Request (SearchList channel_id 50 token) :: d).
    rewrite Hd, (fetch_video_page_log _ _ _ _ Hfetch), <- app_assoc.
    cbn. now rewrite Hl, Hs, String.eqb_refl.
Qed.

(** While nothing is collected and the page at the start is empty and
    without a cursor, every round asks for that page again. *)
Lemma reduce_on_empty_channel (xs : list nat) (st : state W) :
  (forall w, exists response w',
      search_list youtube channel_id 50 None w = (Return response, w')
      /\ extract_video_ids response = Return []
      /\ nextPageToken response = None) ->
  exists st',
    reduce (accumulate_videos youtube channel_id) xs ([], None) st
    = (Return ([], None), st')
    /\ log st' = log st ++ repeat (Request (SearchList channel_id 50 None))
                                  (length xs).
Proof.
  intros Hempty. revert st. induction xs as [|x xs IH]; intros st.
  - exists st. cbn. now rewrite app_nil_r.
  - destruct (Hempty (world st)) as (response & w' & Hsearch & Hids & Hnext).
    set (st1 := logged w' st (Request (SearchList channel_id 50 None))).
    assert (Hfetch : fetch_video_page youtube channel_id None st
                     = (Return response, st1)).
    { unfold fetch_video_page, call. now rewrite Hsearch. }
    destruct (IH st1) as (st' & Hred & Hlog). exists st'.
    cbn [reduce]. unfold bind at 1.
    rewrite (accumulate_videos_round [] None x st st1 response []
                                     eq_refl Hfetch Hids).
    rewrite Hnext. cbn [app]. split; [exact Hred|].
    rewrite Hlog. unfold st1, logged. cbn [log length repeat].
    now rewrite <- app_assoc.
Qed.

End PageRun.

(** [page_run_one] with the last cursor named. *)
Lemma page_run_last {W : Type} (youtube : Service W) (channel_id : string)
      (token final : option string) (st st1 : state W)
      (response : search_response) (ids : list string) :
  fetch_video_page youtube channel_id token st = (Return response, st1) ->
  extract_video_ids response = Return ids ->
  nextPageToken response = final ->
  page_run youtube channel_id token st [ids] final st1.
Proof. intros Hfetch Hids <-. now apply page_run_one with (response := response). Qed.

(** X6: when the endpoint delivers a chain of at most 100 pages linked by
    cursors, the last one without a cursor, and the pages hold at least
    one id, [fetch_all_video_ids] returns the ids of all pages in order
    and has sent exactly one request per page. *)
Theorem fetch_all_video_ids_follows_cursors {W : Type} (youtube : Service W)
        (channel_id : string) (st st' : state W)
        (pages : list (list string)) :
  page_run youtube channel_id None st pages None st' ->
  length pages <= 100 ->
  truthy (concat pages) = true ->
  fetch_all_video_ids youtube channel_id st = (Return (concat pages), st')
  /\ exists delta,
      log st' = log st ++ delta
      /\ length delta = length pages
      /\ forallb (is_search_request channel_id) delta = true.
Proof.
  intros Hrun Hlen Hids. split; [|exact (page_run_log _ _ _ _ _ _ _ Hrun)].
  unfold fetch_all_video_ids, bind.
  rewrite (reduce_follows_page_run _ _ _ _ _ _ _ Hrun (range 100) [] eq_refl).
  - cbn [app]. now rewrite (reduce_accumulate_finished _ _ _ _ _ Hids).
  - unfold range. now rewrite length_seq.
Qed.

(** X7: after 100 pages [fetch_all_video_ids] stops and returns what it
    has, whether or not the hundredth page carries a cursor: the videos
    beyond are left out, without any error. *)
Theorem fetch_all_video_ids_truncates_at_cap {W : Type} (youtube : Service W)
        (channel_id : string) (st st' : state W)
        (pages : list (list string)) (final : option string) :
  page_run youtube channel_id None st pages final st' ->
  length pages = 100 ->
  fetch_all_video_ids youtube channel_id st = (Return (concat pages), st').
Proof.
  intros Hrun Hlen. unfold fetch_all_video_ids, bind.
  rewrite (reduce_follows_page_run _ _ _ _ _ _ _ Hrun (range 100) [] eq_refl).
  - rewrite Hlen. unfold range.
    replace (skipn 100 (seq 0 100)) with (@nil nat); [reflexivity|].
    symmetry. apply skipn_all2. now rewrite length_seq.
  - unfold range. rewrite length_seq. lia.
Qed.

(** X8: a page request that raises ends the enumeration with that
    exception, on the first page or after any number of pages; the ids
    collected before are not returned. *)
Theorem fetch_all_video_ids_propagates_error {W : Type} (youtube : Service W)
        (channel_id : string) (st st1 st2 : state W)
        (pages : list (list string)) (token : option string) (e : exn) :
  (pages = [] /\ token = None /\ st1 = st)
  \/ (exists t, token = Some t
                /\ page_run youtube channel_id None st pages token st1) ->
  length pages < 100 ->
  fetch_video_page youtube channel_id token st1 = (Raise e, st2) ->
  fetch_all_video_ids youtube channel_id st = (Raise e, st2).
Proof.
  intros Hprefix Hlen Hfail.
  assert (Hstep : forall ids x xs,
             is_None token && truthy ids = false ->
             reduce (accumulate_videos youtube channel_id) (x :: xs)
                    (ids, token) st1 = (Raise e, st2)).
  { intros ids x xs Hactive. cbn [reduce]. unfold bind at 1, accumulate_videos.
    rewrite Hactive. unfold bind at 1. now rewrite Hfail. }
  unfold fetch_all_video_ids, bind.
  destruct Hprefix as [(-> & -> & ->) | (t & -> & Hrun)].
  - unfold range. cbn [seq]. now rewrite Hstep.
  - rewrite (reduce_follows_page_run _ _ _ _ _ _ _ Hrun (range 100) [] eq_refl).
    + unfold range.
      destruct (skipn (length pages) (seq 0 100)) as [|x xs] eqn:E.
      * apply (f_equal (@length nat)) in E.
        rewrite length_skipn, length_seq in E. cbn [length] in E. lia.
      * now rewrite Hstep.
    + unfold range. rewrite length_seq. lia.
Qed.

(** X9: for a channel whose first page is empty and has no cursor,
    [fetch_all_video_ids] returns the empty list after asking for that
    page exactly 100 times. *)
Theorem fetch_all_video_ids_empty_first_page {W : Type} (youtube : Service W)
        (channel_id : string) (st : state W) :
  (forall w, exists response w',
      search_list youtube channel_id 50 None w = (Return response, w')
      /\ extract_video_ids response = Return []
      /\ nextPageToken response = None) ->
  exists st',
    fetch_all_video_ids youtube channel_id st = (Return [], st')
    /\ log st' = log st ++ repeat (Request (SearchList channel_id 50 None)) 100.
Proof.
  intros Hempty.
  destruct (reduce_on_empty_channel youtube channel_id (range 100) st Hempty)
    as (st' & Hred & Hlog).
  exists st'. unfold fetch_all_video_ids, bind. rewrite Hred.
  split; [reflexivity|]. unfold range in Hlog. now rewrite length_seq in Hlog.
Qed.

(** ** More on the like executors *)

Section LikeRuns.
Context {W : Type} (youtube : Service W).

Lemma rate_requests_app (a b : list event) :
  rate_requests (a ++ b) = rate_requests a ++ rate_requests b.
Proof. apply flat_map_app. Qed.

Lemma progress_calls_app (a b : list event) :
  progress_calls (a ++ b) = progress_calls a ++ progress_calls b.
Proof. apply flat_map_app. Qed.

(** What a returned run of the bulk path has sent and produced. *)
Lemma like_videos_returned (videos : list Video.t) (st st' : state W)
      (results : list LikeResult) :
  like_videos youtube videos st = (Return results, st') ->
  map video_id results = map Video.id videos
  /\ log st' = log st
               ++ map (fun v => Request (VideosRate (Video.id v) "like")) videos.
Proof.
  unfold like_videos. revert st results.
  induction videos as [|v vs IH]; intros st results; cbn [comprehension].
  - unfold ret. intros H. inversion H. cbn. now rewrite app_nil_r.
  - unfold bind at 1. pose proof (like_video_log youtube v st) as Hl.
    destruct (like_video youtube v st) as [[r|e] st1] eqn:Hlike;
      [|discriminate].
    unfold bind at 1.
    destruct (comprehension (like_video youtube) vs st1) as [[rs|e] st2] eqn:Hrest;
      [|discriminate].
    unfold ret. intros H. inversion H; subst.
    destruct (IH _ _ Hrest) as [Hids Hlog]. cbn [snd] in Hl. cbn [map]. split.
    + rewrite Hids. f_equal. eapply like_video_video_id; eassumption.
    + rewrite Hlog, Hl. now rewrite <- app_assoc.
Qed.

(** The bulk path on [a ++ b] is the bulk path on [a], then on [b]. *)
Lemma like_videos_app (a b : list Video.t) (st : state W) :
  like_videos youtube (a ++ b) st
  = match like_videos youtube a st with
    | (Return ra, st1) =>
        match like_videos youtube b st1 with
        | (Return rb, st2) => (Return (ra ++ rb), st2)
        | (Raise e, st2) => (Raise e, st2)
        end
    | (Raise e, st1) => (Raise e, st1)
    end.
Proof.
  unfold like_videos. revert st.
  induction a as [|v a IH]; intros st; cbn [app comprehension].
  - unfold ret.
    destruct (comprehension (like_video youtube) b st) as [[rb|e] st2];
      reflexivity.
  - unfold bind, ret. cbn beta.
    destruct (like_video youtube v st) as [[r|e] st1]; [|reflexivity].
    rewrite IH.
    destruct (comprehension (like_video youtube) a st1) as [[ra|e] st2];
      [|reflexivity].
    destruct (comprehension (like_video youtube) b st2) as [[rb|e] st3];
      reflexivity.
Qed.

Lemma like_video_same_world (video : Video.t) (sa sb : state W) :
  world sa = world sb ->
  fst (like_video youtube video sa) = fst (like_video youtube video sb)
  /\ world (snd (like_video youtube video sa))
     = world (snd (like_video youtube video sb)).
Proof.
  intros Hw. rewrite !like_video_cases. cbn zeta. rewrite Hw.
  destruct (fst (videos_rate _ _ _ _)) as [u|[m|k|m]]; split; reflexivity.
Qed.

Lemma quota_only_last_cons (r : LikeResult) (rs : list LikeResult) :
  quota_exceeded r = false -> quota_only_last rs = true ->
  quota_only_last (r :: rs) = true.
Proof.
  intros Hr Hrs. destruct rs as [|r' rs]; [discriminate|].
  cbn [quota_only_last] in *. now rewrite Hr, Hrs.
Qed.

(** The shape of every run of the callback loop, whatever its outcome. *)
Lemma like_loop_shape (on_progress : Callback W) (total : nat)
      (videos : list Video.t) :
  forall (i : nat) (acc : list LikeResult) (st : state W),
  exists m c delta,
    log (snd (like_loop youtube on_progress total
                        (combine (seq i (length videos)) videos) acc st))
    = log st ++ delta
    /\ m <= length videos /\ c <= m <= S c
    /\ rate_requests delta = map Video.id (firstn m videos)
    /\ progress_calls delta
       = map (fun iv => (fst iv, total, snd iv))
             (combine (seq i c) (firstn c videos))
    /\ forallb is_like_event delta = true
    /\ forall results,
        fst (like_loop youtube on_progress total
                       (combine (seq i (length videos)) videos) acc st)
        = Return results ->
        exists new,
          results = acc ++ new /\ length new = m /\ c = m
          /\ map video_id new = map Video.id (firstn m videos)
          /\ upto_quota new = new
          /\ (m = length videos \/ quota_only_last new = true).
Proof.
  induction videos as [|v vs IH]; intros i acc st.
  - exists 0, 0, []. cbn. rewrite !app_nil_r. repeat split; try lia.
    intros results H. inversion H. exists []. rewrite app_nil_r.
    repeat split. now left.
  - cbn [length seq combine like_loop]. unfold bind. cbn beta.
    pose proof (like_video_log youtube v st) as Hl.
    destruct (like_video youtube v st) as [[r|e] st1] eqn:Hlike; cbn [snd] in Hl.
    2:{ exists 1, 0, [Request (VideosRate (Video.id v) "like")].
        cbn. repeat split; try lia; try assumption. discriminate. }
    destruct (invoke on_progress i total v st1) as [[[]|e] st2] eqn:Hcb.
    2:{ exists 1, 1, [Request (VideosRate (Video.id v) "like");
                      Progress i total v].
        cbn [snd fst]. rewrite (invoke_log _ _ _ _ _ _ _ Hcb), Hl, <- app_assoc.
        cbn. repeat split; try lia. discriminate. }
    pose proof (invoke_log _ _ _ _ _ _ _ Hcb) as Hl2.
    pose proof (like_video_video_id _ _ _ _ _ Hlike) as Hid.
    destruct (quota_exceeded r) eqn:Hq.
    + exists 1, 1, [Request (VideosRate (Video.id v) "like");
                    Progress i total v].
      cbn [snd fst ret]. rewrite Hl2, Hl, <- app_assoc.
      cbn. repeat split; try lia.
      intros results H. inversion H. exists [r]. cbn. rewrite Hq, Hid.
      repeat split. now right.
    + destruct (IH (S i) (acc ++ [r]) st2)
        as (m & c & d & Hlog & Hm & Hc & Hrate & Hprog & Hev & Hret).
      exists (S m), (S c),
        (Request (VideosRate (Video.id v) "like") :: Progress i total v :: d).
      rewrite Hlog, Hl2, Hl, <- !app_assoc. cbn [app].
      change (rate_requests (Request (VideosRate (Video.id v) "like")
                             :: Progress i total v :: d))
        with (Video.id v :: rate_requests d).
      change (progress_calls (Request (VideosRate (Video.id v) "like")
                              :: Progress i total v :: d))
        with ((i, total, v) :: progress_calls d).
      rewrite Hrate, Hprog. cbn [length firstn map seq combine fst snd forallb
                                 is_like_event andb].
      repeat split; try lia; try assumption.
      intros results H. destruct (Hret results H)
        as (new & -> & Hlen & -> & Hids & Hupto & Hend).
      exists (r :: new). rewrite <- app_assoc. cbn [app length map upto_quota].
      rewrite Hq, Hupto, Hid, Hids, Hlen. repeat split.
      destruct Hend as [-> | Hlast]; [now left | right].
      now apply quota_only_last_cons.
Qed.

(** The bulk path sends like requests and nothing else. *)
Lemma like_videos_events (videos : list Video.t) (st : state W) :
  exists delta,
    log (snd (like_videos youtube videos st)) = log st ++ delta
    /\ forallb is_like_event delta = true.
Proof.
  unfold like_videos. revert st.
  induction videos as [|v vs IH]; intros st; cbn [comprehension].
  - exists []. cbn. now rewrite app_nil_r.
  - unfold bind at 1. pose proof (like_video_log youtube v st) as Hl.
    destruct (like_video youtube v st) as [[r|e] st1]; cbn [snd] in Hl.
    + destruct (IH st1) as (d & Hd & Hev). unfold bind at 1.
      exists (Request (VideosRate (Video.id v) "like") :: d).
      destruct (comprehension (like_video youtube) vs st1) as [[rs|e] st2];
        cbn [snd ret] in *; rewrite Hd, Hl, <- app_assoc; now split.
    + exists [Request (VideosRate (Video.id v) "like")]. now split.
Qed.

End LikeRuns.

(** X10: the bulk path stops at the first like attempt that raises
    something other than an [HttpError]: it raises that exception, the
    results of the videos before are lost, and no request is sent for the
    videos after. *)
Theorem like_videos_aborts_on_other_exception {W : Type}
        (youtube : Service W) (before after : list Video.t) (video : Video.t)
        (st st1 st2 : state W) (results : list LikeResult) (e : exn) :
  like_videos youtube before st = (Return results, st1) ->
  like_video youtube video st1 = (Raise e, st2) ->
  like_videos youtube (before ++ video :: after) st = (Raise e, st2)
  /\ exists delta,
      log st2 = log st ++ delta
      /\ rate_requests delta = map Video.id (before ++ [video]).
Proof.
  intros Hbefore Hfail. split.
  - rewrite like_videos_app, Hbefore. unfold like_videos.
    cbn [comprehension]. unfold bind at 1. now rewrite Hfail.
  - destruct (like_videos_returned _ _ _ _ _ Hbefore) as [_ Hlog].
    pose proof (like_video_log youtube video st1) as Hl.
    rewrite Hfail in Hl. cbn [snd] in Hl.
    eexists. split; [rewrite Hl, Hlog, <- app_assoc; reflexivity|].
    rewrite rate_requests_app, rate_requests_map, map_app. reflexivity.
Qed.

(** X11: whatever the API and the callback do, a run of the callback
    path likes the videos in input order, each at most once, and tells
    the callback after each like, with counts 1, 2, ... and the length of
    the input as total; a raise can only cut the run short.  When it
    returns, there is one result per like sent, no result but the last
    has the quota flag, and the results are fewer than the videos only if
    the last one has it. *)
Theorem like_videos_with_callback_run_shape {W : Type} (youtube : Service W)
        (on_progress : Callback W) (videos : list Video.t) (st : state W) :
  exists m c delta,
    log (snd (like_videos_with_callback youtube videos on_progress st))
    = log st ++ delta
    /\ m <= length videos /\ c <= m <= S c
    /\ rate_requests delta = map Video.id (firstn m videos)
    /\ progress_calls delta
       = map (fun iv => (fst iv, length videos, snd iv))
             (enumerate (firstn c videos) 1)
    /\ forallb is_like_event delta = true
    /\ forall results,
        fst (like_videos_with_callback youtube videos on_progress st)
        = Return results ->
        length results = m /\ c = m
        /\ map video_id results = map Video.id (firstn m videos)
        /\ upto_quota results = results
        /\ (length results = length videos
            \/ quota_only_last results = true).
Proof.
  unfold like_videos_with_callback. cbn zeta. unfold enumerate at 1 2.
  destruct (like_loop_shape youtube on_progress (length videos) videos 1 [] st)
    as (m & c & d & Hlog & Hm & Hc & Hrate & Hprog & Hev & Hret).
  exists m, c, d. repeat split; try assumption; try lia.
  - rewrite Hprog. unfold enumerate. rewrite length_firstn.
    replace (Nat.min c (length videos)) with c by lia. reflexivity.
  - destruct (Hret _ H) as (new & -> & Hlen & _). exact Hlen.
  - destruct (Hret _ H) as (new & -> & _ & Heq & _). exact Heq.
  - destruct (Hret _ H) as (new & -> & _ & _ & Hids & _). exact Hids.
  - destruct (Hret _ H) as (new & -> & _ & _ & _ & Hupto & _). exact Hupto.
  - destruct (Hret _ H) as (new & -> & Hlen & _ & _ & _ & Hend).
    cbn [app]. rewrite Hlen. exact Hend.
Qed.

Lemma like_loop_prefix_of_bulk {W : Type} (youtube : Service W)
      (on_progress : Callback W) (total : nat) :
  world_neutral on_progress ->
  forall (videos : list Video.t) (i : nat) (acc : list LikeResult)
         (sa sa' sb : state W) (results : list LikeResult),
    world sa = world sb ->
    like_videos youtube videos sa = (Return results, sa') ->
    fst (like_loop youtube on_progress total
                   (combine (seq i (length videos)) videos) acc sb)
    = Return (acc ++ upto_quota results).
Proof.
  intros Hneutral. unfold like_videos.
  induction videos as [|v vs IH]; intros i acc sa sa' sb results Hw;
    cbn [comprehension length seq combine like_loop].
  - unfold ret. intros H. inversion H. cbn. now rewrite app_nil_r.
  - unfold bind. cbn beta.
    destruct (like_video_same_world youtube v sa sb Hw) as [Hsame Hworld].
    destruct (like_video youtube v sa) as [[r|e] sa1]; [|discriminate].
    destruct (like_video youtube v sb) as [[r'|e'] sb1];
      cbn [fst snd] in Hsame, Hworld; [|discriminate].
    inversion Hsame; subst r'.
    destruct (comprehension (like_video youtube) vs sa1) as [[rs|e] sa2] eqn:Hrest;
      [|discriminate].
    unfold ret. intros H. inversion H; subst.
    unfold invoke. rewrite (Hneutral i total v (world sb1)).
    cbn [upto_quota]. destruct (quota_exceeded r); [reflexivity|].
    rewrite (IH (S i) (acc ++ [r]) sa1 sa' _ rs); [|exact Hworld|exact Hrest].
    now rewrite <- app_assoc.
Qed.

(** X12: with a callback that leaves the remote world alone, the callback
    path returns the results of the bulk path cut after the first one
    that has the quota flag: the two paths differ in nothing else. *)
Theorem like_videos_with_callback_is_bulk_cut_at_quota {W : Type}
        (youtube : Service W) (on_progress : Callback W)
        (videos : list Video.t) (st st' : state W)
        (results : list LikeResult) :
  world_neutral on_progress ->
  like_videos youtube videos st = (Return results, st') ->
  fst (like_videos_with_callback youtube videos on_progress st)
  = Return (upto_quota results).
Proof.
  intros Hneutral Hbulk. unfold like_videos_with_callback, enumerate.
  cbn zeta.
  exact (like_loop_prefix_of_bulk youtube on_progress (length videos) Hneutral
           videos 1 [] st st' st results eq_refl Hbulk).
Qed.

(** ** More on resolution and on the workflow *)

(** What a returned run of the callback path has produced. *)
Lemma callback_path_returned_shape {W : Type}
      (youtube : Service W) (on_progress : Callback W)
      (videos : list Video.t) (st : state W) :
  exists m,
    m <= length videos
    /\ forall results,
        fst (like_videos_with_callback youtube videos on_progress st)
        = Return results ->
        length results = m
        /\ map video_id results = map Video.id (firstn m videos).
Proof.
  unfold like_videos_with_callback, enumerate. cbn zeta.
  destruct (like_loop_shape youtube on_progress (length videos) videos 1 [] st)
    as (m & c & d & _ & Hm & _ & _ & _ & _ & Hret).
  exists m. split; [exact Hm|]. intros results H.
  destruct (Hret _ H) as (new & -> & Hlen & _ & Hids & _). now split.
Qed.


Section Workflow.
Context {W : Type} (youtube : Service W).

(** [find_channel] sends one or two channel lookups, and nothing else. *)
Lemma find_channel_log (handle : string) (st : state W) :
  exists delta,
    log (snd (find_channel youtube handle st)) = log st ++ delta
    /\ forallb is_channel_lookup delta = true
    /\ length delta <= 2.
Proof.
  rewrite find_channel_cases. cbn zeta.
  rewrite lookup_channel_by_handle_cases. cbn zeta.
  destruct (truthy_result (lookup_result (fst _))).
  - exists [Request (ChannelsList_forHandle (clean_handle handle))].
    destruct (subscript_id _); cbn; repeat split; lia.
  - rewrite lookup_channel_by_username_cases. cbn zeta.
    exists [Request (ChannelsList_forHandle (clean_handle handle));
            Request (ChannelsList_forUsername (clean_handle handle))].
    destruct (truthy_result _); [destruct (subscript_id _)|];
      cbn; rewrite <- app_assoc; repeat split; lia.
Qed.

(** A channel that [find_channel] returns carries the handle as given. *)
Lemma find_channel_handle (handle : string) (st st' : state W)
      (channel : Channel.t) :
  find_channel youtube handle st = (Return (Some channel), st') ->
  Channel.handle channel = handle.
Proof.
  rewrite find_channel_cases. cbn zeta.
  rewrite lookup_channel_by_handle_cases. cbn zeta.
  destruct (truthy_result (lookup_result (fst _))).
  - destruct (subscript_id _); intros H; inversion H; reflexivity.
  - rewrite lookup_channel_by_username_cases. cbn zeta.
    destruct (truthy_result _); [destruct (subscript_id _)|];
      intros H; inversion H; reflexivity.
Qed.

Lemma fetch_channel_videos_log (channel_id : string) (st : state W) :
  exists delta,
    log (snd (fetch_channel_videos youtube channel_id st)) = log st ++ delta
    /\ forallb is_any_search delta = true
    /\ length delta <= 100.
Proof.
  destruct (reduce_accumulate_log youtube channel_id (range 100) ([], None) st)
    as (delta & Hlog & Hlen & Hsearch).
  unfold range in Hlen. rewrite length_seq in Hlen.
  exists delta. split; [|split; [|exact Hlen]].
  - unfold fetch_channel_videos, fetch_all_video_ids, bind, ret.
    destruct (reduce _ _ _ _) as [[r|e] st1]; exact Hlog.
  - clear - Hsearch. induction delta as [|ev d IH]; [reflexivity|].
    cbn [forallb] in *. apply andb_true_iff in Hsearch as [Hev Hd].
    rewrite (IH Hd), andb_true_r.
    destruct ev as [[h|u|c n t|i r]|i t v]; try discriminate. reflexivity.
Qed.

End Workflow.

(** X13: [find_channel] returns "not found" exactly when both lookups
    come back without a usable item: the call raised, the response had no
    items, or its first item was an empty object. *)
Theorem find_channel_none_iff {W : Type} (youtube : Service W)
        (handle : string) (st : state W) :
  let cleaned := clean_handle handle in
  let first := channels_list_forHandle youtube cleaned (world st) in
  let second := channels_list_forUsername youtube cleaned (snd first) in
  fst (find_channel youtube handle st) = Return None
  <-> truthy_result (lookup_result (fst first)) = false
      /\ truthy_result (lookup_result (fst second)) = false.
Proof.
  cbn zeta. rewrite find_channel_cases. cbn zeta.
  rewrite lookup_channel_by_handle_cases. cbn zeta.
  set (a1 := channels_list_forHandle youtube (clean_handle handle) (world st)).
  destruct (truthy_result (lookup_result (fst a1))).
  - split; [|intros [H _]; discriminate].
    destruct (subscript_id _); discriminate.
  - rewrite lookup_channel_by_username_cases. cbn zeta. cbn [logged world].
    set (a2 := channels_list_forUsername youtube (clean_handle handle) (snd a1)).
    destruct (truthy_result (lookup_result (fst a2))).
    + split; [|intros [_ H]; discriminate].
      destruct (subscript_id _); discriminate.
    + split; [now split | reflexivity].
Qed.

(** X14: the requests of the workflow come in three phases, whatever the
    outcome: at most two channel lookups, then at most 100 page requests,
    then like requests and callback invocations.  No like is sent before
    the enumeration is over and no lookup or page request after the first
    like. *)
Theorem like_all_channel_videos_phases {W : Type} (youtube : Service W)
        (handle : string) (on_progress : option (Callback W))
        (st : state W) :
  exists lookups pages likes,
    log (snd (like_all_channel_videos youtube handle on_progress st))
    = log st ++ lookups ++ pages ++ likes
    /\ forallb is_channel_lookup lookups = true /\ length lookups <= 2
    /\ forallb is_any_search pages = true /\ length pages <= 100
    /\ forallb is_like_event likes = true.
Proof.
  unfold like_all_channel_videos, bind. cbn beta.
  destruct (find_channel_log youtube handle st) as (d1 & Hd1 & Hl1 & Hn1).
  destruct (find_channel youtube handle st) as [[[channel|]|e] st1];
    cbn [snd] in Hd1.
  2,3: exists d1, [], []; cbn; rewrite !app_nil_r; repeat split; assumption || lia.
  destruct (fetch_channel_videos_log youtube (Channel.id channel) st1)
    as (d2 & Hd2 & Hl2 & Hn2).
  destruct (fetch_channel_videos youtube (Channel.id channel) st1)
    as [[videos|e] st2]; cbn [snd] in Hd2.
  2: { exists d1, d2, []. cbn [snd]. rewrite Hd2, Hd1, app_nil_r, <- app_assoc.
       repeat split; assumption. }
  assert (Hlikes : exists d3,
             log (snd (match on_progress with
                       | Some cb => like_videos_with_callback youtube videos cb
                       | None => like_videos youtube videos
                       end st2)) = log st2 ++ d3
             /\ forallb is_like_event d3 = true).
  { destruct on_progress as [cb|].
    - unfold like_videos_with_callback, enumerate. cbn zeta.
      destruct (like_loop_shape youtube cb (length videos) videos 1 [] st2)
        as (m & c & d & Hlog & _ & _ & _ & _ & Hev & _).
      now exists d.
    - apply like_videos_events. }
  destruct Hlikes as (d3 & Hd3 & Hl3).
  exists d1, d2, d3.
  destruct (match on_progress with
            | Some cb => like_videos_with_callback youtube videos cb
            | None => like_videos youtube videos
            end st2) as [[results|e] st3]; cbn [snd ret] in *;
    rewrite Hd3, Hd2, Hd1, <- !app_assoc; repeat split; assumption.
Qed.

(** X15: what the workflow returns is consistent: without a channel the
    two lists are empty; with a channel, the channel carries the handle as
    given, the results are those of the first videos of the list, in
    order, and without a callback there is one result per video. *)
Theorem like_all_channel_videos_result_shape {W : Type} (youtube : Service W)
        (handle : string) (on_progress : option (Callback W))
        (st st' : state W) (channel : option Channel.t)
        (videos : list Video.t) (results : list LikeResult) :
  like_all_channel_videos youtube handle on_progress st
  = (Return (channel, videos, results), st') ->
  match channel with
  | None => videos = [] /\ results = []
  | Some c =>
      Channel.handle c = handle
      /\ length results <= length videos
      /\ map video_id results = map Video.id (firstn (length results) videos)
      /\ (on_progress = None -> length results = length videos)
  end.
Proof.
  unfold like_all_channel_videos, bind. cbn beta.
  destruct (find_channel youtube handle st) as [[[c|]|e] st1] eqn:Hfind;
    [| unfold ret; intros H; inversion H; now split | discriminate].
  destruct (fetch_channel_videos youtube (Channel.id c) st1)
    as [[vs|e] st2]; [|discriminate].
  destruct on_progress as [cb|].
  - destruct (callback_path_returned_shape youtube cb vs st2)
      as (m & Hm & Hret).
    destruct (like_videos_with_callback youtube vs cb st2) as [[rs|e] st3];
      [|discriminate].
    unfold ret. intros H. inversion H; subst.
    destruct (Hret _ eq_refl) as [Hlen Hids].
    split; [eapply find_channel_handle; eassumption|].
    rewrite Hlen. repeat split; [exact Hm | exact Hids | discriminate].
  - destruct (like_videos youtube vs st2) as [[rs|e] st3] eqn:Hbulk;
      [|discriminate].
    unfold ret. intros H. inversion H; subst.
    destruct (like_videos_returned _ _ _ _ _ Hbulk) as [Hids _].
    assert (Hlen : length results = length videos)
      by now rewrite <- (length_map video_id), Hids, length_map.
    split; [eapply find_channel_handle; eassumption|].
    rewrite Hlen, firstn_all. repeat split; [lia | exact Hids].
Qed.

(** ** Runs of the sample services, continued *)

Lemma endless_page_run (n : nat) :
  forall (token : option string) (st : state unit),
  exists st',
    page_run endless_service "UC123" token st (repeat ["v"%string] (S n))
             (Some "next"%string) st'.
Proof.
  induction n as [|n IH]; intros token st; destruct st as [[] l];
    set (st := {| world := tt; log := l |}).
  - eexists. eapply page_run_last; reflexivity.
  - destruct (IH (Some "next"%string)
                 (logged tt st (Request (SearchList "UC123" 50 token))))
      as [st' Hrun].
    exists st'. change (repeat ["v"%string] (S (S n)))
      with (["v"%string] :: repeat ["v"%string] (S n)).
    eapply page_run_next; [reflexivity | reflexivity | reflexivity | exact Hrun].
Qed.

Lemma fetch_all_video_ids_follows_cursors_witness :
  fetch_all_video_ids two_page_service "UC123" start_unit
  = (Return ["v1"; "v2"; "v3"]%string,
     {| world := tt;
        log := [Request (SearchList "UC123" 50 None);
                Request (SearchList "UC123" 50 (Some "p2"%string))] |}).
Proof.
  refine (proj1 (fetch_all_video_ids_follows_cursors
                   two_page_service "UC123" start_unit _
                   [["v1"; "v2"]; ["v3"]]%string _ _ _)).
  - eapply page_run_next; [reflexivity | reflexivity | reflexivity |].
    eapply page_run_last; reflexivity.
  - cbn. lia.
  - reflexivity.
Defined.

Lemma fetch_all_video_ids_truncates_at_cap_witness :
  exists st',
    fetch_all_video_ids endless_service "UC123" start_unit
    = (Return (concat (repeat ["v"%string] 100)), st').
Proof.
  destruct (endless_page_run 99 None start_unit) as [st' Hrun].
  exists st'.
  exact (fetch_all_video_ids_truncates_at_cap
           endless_service "UC123" start_unit st' _ _ Hrun
           (repeat_length _ 100)).
Defined.

Lemma fetch_all_video_ids_propagates_error_witness :
  fetch_all_video_ids flaky_service "UC123" start_unit
  = (Raise (HttpError quota_message),
     {| world := tt;
        log := [Request (SearchList "UC123" 50 None);
                Request (SearchList "UC123" 50 (Some "p2"%string))] |}).
Proof.
  apply (fetch_all_video_ids_propagates_error
           flaky_service "UC123" start_unit
           {| world := tt; log := [Request (SearchList "UC123" 50 None)] |}
           _ [["v1"; "v2"]%string] (Some "p2"%string)).
  - right. exists "p2"%string. split; [reflexivity|].
    eapply page_run_last; reflexivity.
  - cbn. lia.
  - reflexivity.
Defined.

Lemma fetch_all_video_ids_empty_first_page_witness :
  exists st',
    fetch_all_video_ids empty_channel_service "UC123" start_unit
    = (Return [], st')
    /\ log st' = log start_unit
                 ++ repeat (Request (SearchList "UC123" 50 None)) 100.
Proof.
  apply (fetch_all_video_ids_empty_first_page
           empty_channel_service "UC123" start_unit).
  intros w. eexists. eexists. repeat split.
Defined.

Lemma like_videos_aborts_on_other_exception_witness :
  like_videos (offline_after 1) three_videos start
  = (Raise (OtherException "Unable to find the server at youtube.googleapis.com"),
     {| world := 1;
        log := [Request (VideosRate "v1" "like");
                Request (VideosRate "v2" "like")] |}).
Proof.
  refine (proj1 (like_videos_aborts_on_other_exception
                   (offline_after 1) [Video.mk "v1"] [Video.mk "v3"]
                   (Video.mk "v2") start
                   {| world := 1; log := [Request (VideosRate "v1" "like")] |}
                   _ [mkLikeResult "v1" true None false] _ _ _));
    reflexivity.
Defined.

Lemma like_videos_with_callback_is_bulk_cut_at_quota_witness :
  fst (like_videos_with_callback (hampter_service 1) three_videos silent start)
  = Return [mkLikeResult "v1" true None false;
            mkLikeResult "v2" false (Some quota_message) true].
Proof.
  refine (like_videos_with_callback_is_bulk_cut_at_quota
            (hampter_service 1) silent three_videos start
            {| world := 1;
               log := [Request (VideosRate "v1" "like");
                       Request (VideosRate "v2" "like");
                       Request (VideosRate "v3" "like")] |}
            [mkLikeResult "v1" true None false;
             mkLikeResult "v2" false (Some quota_message) true;
             mkLikeResult "v3" false (Some quota_message) true] _ _).
  - intros i total video w. reflexivity.
  - reflexivity.
Defined.

Lemma like_all_channel_videos_result_shape_witness :
  Channel.handle (Channel.mk "UC123" "@the_hampter") = "@the_hampter"%string
  /\ 2 <= 3
  /\ ["v1"; "v2"]%string = ["v1"; "v2"]%string
  /\ (Some silent = None -> 2 = 3).
Proof.
  exact (like_all_channel_videos_result_shape
           (hampter_service 1) "@the_hampter" (Some silent) start
           (snd (like_all_channel_videos (hampter_service 1) "@the_hampter"
                                         (Some silent) start))
           (Some (Channel.mk "UC123" "@the_hampter")) three_videos
           [mkLikeResult "v1" true None false;
            mkLikeResult "v2" false (Some quota_message) true]
           ltac:(vm_compute; reflexivity)).
Defined.

(** ** The web front-end *)

Section AppSnapshot.
Context {A : Type}.

Lemma keeps_ret {R} (r : R) : keeps_snapshot (A := A) (ret r).
Proof. intros st. reflexivity. Qed.

Lemma keeps_lift {R} (o : outcome R) : keeps_snapshot (A := A) (lift o).
Proof. intros st. reflexivity. Qed.

Lemma keeps_bind {R S} (m : M (App.World A) R) (k : R -> M (App.World A) S) :
  keeps_snapshot m -> (forall r, keeps_snapshot (k r)) ->
  keeps_snapshot (bind m k).
Proof.
  intros Hm Hk st. unfold bind. specialize (Hm st).
  destruct (m st) as [[r|e] st1]; cbn [snd] in *; [|exact Hm].
  now rewrite (Hk r st1).
Qed.

Lemma keeps_try_except {R} (m : M (App.World A) R) (catches : exn -> bool)
      (handler : exn -> M (App.World A) R) :
  keeps_snapshot m -> (forall e, keeps_snapshot (handler e)) ->
  keeps_snapshot (try_except m catches handler).
Proof.
  intros Hm Hh st. unfold try_except. specialize (Hm st).
  destruct (m st) as [[r|e] st1]; cbn [snd] in *; [exact Hm|].
  destruct (catches e); [|exact Hm]. now rewrite (Hh e st1).
Qed.

Lemma keeps_call {R} (r : request) (f : A -> outcome R * A) :
  keeps_snapshot (call r (App.on_remote_call f)).
Proof.
  intros st. unfold call, App.on_remote_call.
  destruct (f (App.remote (world st))) as [o a]. reflexivity.
Qed.

Lemma keeps_find_channel (youtube : Service A) (handle : string) :
  keeps_snapshot (find_channel (App.on_remote youtube) handle).
Proof.
  unfold find_channel, lookup_strategies. cbn [try_strategies].
  apply keeps_bind.
  { apply keeps_try_except; [|intros e; apply keeps_ret].
    apply keeps_bind; [apply keeps_call | intros r; apply keeps_ret]. }
  intros r1. destruct (truthy_result r1).
  { apply keeps_bind; [apply keeps_lift | intros; apply keeps_ret]. }
  apply keeps_bind.
  { apply keeps_try_except; [|intros e; apply keeps_ret].
    apply keeps_bind; [apply keeps_call | intros r; apply keeps_ret]. }
  intros r2. destruct (truthy_result r2); [|apply keeps_ret].
  apply keeps_bind; [apply keeps_lift | intros; apply keeps_ret].
Qed.

Lemma keeps_reduce {R X} (f : R -> X -> M (App.World A) R) (xs : list X) :
  (forall r x, keeps_snapshot (f r x)) ->
  forall init, keeps_snapshot (reduce f xs init).
Proof.
  intros Hf. induction xs as [|x xs IH]; intros init; cbn [reduce].
  - apply keeps_ret.
  - apply keeps_bind; [apply Hf | intros r; apply IH].
Qed.

Lemma keeps_fetch_channel_videos (youtube : Service A) (channel_id : string) :
  keeps_snapshot (fetch_channel_videos (App.on_remote youtube) channel_id).
Proof.
  unfold fetch_channel_videos, fetch_all_video_ids.
  apply keeps_bind; [|intros; apply keeps_ret].
  apply keeps_bind; [|intros; apply keeps_ret].
  apply keeps_reduce. intros [video_ids page_token] x.
  unfold accumulate_videos.
  destruct (is_None page_token && truthy video_ids); [apply keeps_ret|].
  apply keeps_bind; [apply keeps_call | intros response].
  apply keeps_bind; [apply keeps_lift | intros; apply keeps_ret].
Qed.

Lemma keeps_like_video (youtube : Service A) (video : Video.t) :
  keeps_snapshot (like_video (App.on_remote youtube) video).
Proof.
  unfold like_video. apply keeps_try_except; [|intros e; apply keeps_ret].
  apply keeps_bind; [apply keeps_call | intros; apply keeps_ret].
Qed.

(** The snapshot after a returned run of the callback loop: the callback
    has left the total and the channel as they were, and it shows the
    count and the video of the last round. *)
Lemma like_loop_snapshot (youtube : Service A) (total : nat)
      (videos : list Video.t) :
  forall (i : nat) (acc results : list LikeResult) (st st' : state (App.World A)),
    like_loop (App.on_remote youtube) App.on_progress total
              (combine (seq i (length videos)) videos) acc st
    = (Return results, st') ->
    exists new,
      results = acc ++ new
      /\ App.total_videos (App.snapshot (world st'))
         = App.total_videos (App.snapshot (world st))
      /\ App.channel_id (App.snapshot (world st'))
         = App.channel_id (App.snapshot (world st))
      /\ App.channel_name (App.snapshot (world st'))
         = App.channel_name (App.snapshot (world st))
      /\ match new with
         | [] => App.snapshot (world st') = App.snapshot (world st)
         | _ =>
             App.status (App.snapshot (world st')) = App.LIKING
             /\ S (App.liked_videos (App.snapshot (world st')))
                = i + length new
             /\ App.current_video_id (App.snapshot (world st'))
                = last (map video_id new) ""%string
         end.
Proof.
  induction videos as [|v vs IH]; intros i acc results st st';
    cbn [length seq combine like_loop].
  - unfold ret. intros H. inversion H; subst. exists [].
    now rewrite app_nil_r.
  - unfold bind. cbn beta.
    pose proof (keeps_like_video youtube v st) as Hkeep.
    destruct (like_video (App.on_remote youtube) v st) as [[r|e] st1] eqn:Hlike;
      [|discriminate].
    cbn [snd] in Hkeep.
    pose proof (like_video_video_id _ _ _ _ _ Hlike) as Hid.
    unfold invoke, App.on_progress. cbn zeta.
    set (st2 := {| world := _; log := _ |}).
    assert (H2 : App.total_videos (App.snapshot (world st2))
                 = App.total_videos (App.snapshot (world st))
                 /\ App.channel_id (App.snapshot (world st2))
                    = App.channel_id (App.snapshot (world st))
                 /\ App.channel_name (App.snapshot (world st2))
                    = App.channel_name (App.snapshot (world st))
                 /\ App.status (App.snapshot (world st2)) = App.LIKING
                 /\ App.liked_videos (App.snapshot (world st2)) = i
                 /\ App.current_video_id (App.snapshot (world st2))
                    = Video.id v).
    { unfold st2. cbn. now rewrite Hkeep. }
    clearbody st2. destruct H2 as (Ht & Hc & Hn & Hs & Hl & Hv).
    destruct (quota_exceeded r).
    + unfold ret. intros H. inversion H; subst. exists [r].
      cbn. rewrite Hid. repeat split; try assumption. lia.
    + intros H. destruct (IH _ _ _ _ _ H) as (new & -> & Ht' & Hc' & Hn' & Hnew).
      exists (r :: new). rewrite <- app_assoc. split; [reflexivity|].
      rewrite Ht', Hc', Hn'.
      split; [exact Ht|]. split; [exact Hc|]. split; [exact Hn|].
      destruct new as [|r' new].
      * rewrite Hnew. cbn. rewrite Hid, Hl.
        repeat split; [exact Hs | lia | exact Hv].
      * destruct Hnew as (Hs' & Hl' & Hv'). cbn [length] in *.
        repeat split; [exact Hs' | lia | exact Hv'].
Qed.

End AppSnapshot.

Section AppWorkflow.
Context {A : Type}.

(** The snapshot after a returned workflow, against the one before. *)
Lemma like_all_channel_videos_snapshot (youtube : Service A) (name : string)
      (st st' : state (App.World A)) (channel : option Channel.t)
      (videos : list Video.t) (results : list LikeResult) :
  like_all_channel_videos (App.on_remote youtube) name
                          (Some App.on_progress) st
  = (Return (channel, videos, results), st') ->
  let s := App.snapshot (world st) in
  let s' := App.snapshot (world st') in
  match channel with
  | Some c => Channel.handle c = name
  | None => videos = [] /\ results = []
  end
  /\ App.total_videos s' = App.total_videos s
  /\ App.channel_id s' = App.channel_id s
  /\ App.channel_name s' = App.channel_name s
  /\ match results with
     | [] => s' = s
     | _ =>
         App.status s' = App.LIKING
         /\ App.liked_videos s' = length results
         /\ App.current_video_id s' = last (map video_id results) ""%string
     end.
Proof.
  cbn zeta. unfold like_all_channel_videos, bind. cbn beta.
  pose proof (keeps_find_channel youtube name st) as Hk1.
  destruct (find_channel (App.on_remote youtube) name st)
    as [[[c|]|e] st1] eqn:Hfind; cbn [snd] in Hk1;
    [| unfold ret; intros H; inversion H; subst; now rewrite Hk1
     | discriminate].
  pose proof (keeps_fetch_channel_videos youtube (Channel.id c) st1) as Hk2.
  destruct (fetch_channel_videos (App.on_remote youtube) (Channel.id c) st1)
    as [[vs|e] st2]; cbn [snd] in Hk2; [|discriminate].
  unfold like_videos_with_callback, enumerate. cbn zeta.
  destruct (like_loop (App.on_remote youtube) App.on_progress (length vs)
                      (combine (seq 1 (length vs)) vs) [] st2)
    as [[rs|e] st3] eqn:Hloop; [|discriminate].
  unfold ret. intros H. inversion H; subst.
  destruct (like_loop_snapshot _ _ _ _ _ _ _ _ Hloop)
    as (new & Hnew & Ht & Hc & Hn & Hlast).
  cbn [app] in Hnew. subst new. rewrite Ht, Hc, Hn, Hk2, Hk1.
  split; [eapply find_channel_handle; eassumption|]. repeat split.
  destruct results as [|r rs]; [now rewrite Hlast, Hk2, Hk1|].
  destruct Hlast as (Hs & Hl & Hv). repeat split; [exact Hs | | exact Hv].
  cbn [length] in *. lia.
Qed.

End AppWorkflow.

(** X16: [run_liking_workflow] never raises and never leaves the snapshot
    in a running status: when it ends the status is [COMPLETED] or
    [ERROR], whatever the consent flow and the API do. *)
Theorem run_liking_workflow_ends_completed_or_error {A : Type}
        (authenticate : A -> outcome (Service A) * A) (name : string)
        (st : state (App.World A)) :
  exists st',
    App.run_liking_workflow authenticate name st = (Return tt, st')
    /\ (App.status (App.snapshot (world st')) = App.COMPLETED
        \/ App.status (App.snapshot (world st')) = App.ERROR).
Proof.
  unfold App.run_liking_workflow, try_except.
  match goal with |- context [match ?body st with _ => _ end] =>
    destruct (body st) as [[[]|e] st1] eqn:E end.
  - exists st1. split; [reflexivity|].
    unfold bind, App.get_state, App.update_state,
      App.get_authenticated_service in E.
    cbn [world log App.remote App.snapshot] in E.
    destruct (authenticate (App.remote (world st))) as [[youtube|e] a1];
      [|discriminate].
    destruct (like_all_channel_videos _ _ _ _)
      as [[[[[c|] videos] results]|e] st2]; inversion E; subst; cbn;
      [now left | now right].
  - eexists. split; [reflexivity|]. now right.
Qed.

(** X17: when the workflow finds the channel and returns, the snapshot
    ends [COMPLETED] with the channel's id, the handle as typed, the number
    of videos as total, and as liked count the number of like attempts
    made, failed ones included, while the message counts the successful
    ones. *)
Theorem run_liking_workflow_completed {A : Type}
        (authenticate : A -> outcome (Service A) * A) (name : string)
        (st st2 : state (App.World A)) (youtube : Service A) (a1 : A)
        (c : Channel.t) (videos : list Video.t) (results : list LikeResult) :
  authenticate (App.remote (world st)) = (Return youtube, a1) ->
  like_all_channel_videos
    (App.on_remote youtube) name (Some App.on_progress)
    {| world := App.mkWorld a1 (fetching_snapshot (App.snapshot (world st)) name);
       log := log st |}
  = (Return (Some c, videos, results), st2) ->
  exists st',
    App.run_liking_workflow authenticate name st = (Return tt, st')
    /\ log st' = log st2
    /\ let s := App.snapshot (world st') in
       App.status s = App.COMPLETED
       /\ App.message s
          = App.completed_message (count_successful results) (length videos)
       /\ App.total_videos s = length videos
       /\ App.channel_id s = Channel.id c
       /\ App.channel_name s = name
       /\ match results with
          | [] =>
              App.liked_videos s = App.liked_videos (App.snapshot (world st))
          | _ =>
              App.liked_videos s = length results
              /\ App.current_video_id s = last (map video_id results) ""%string
          end.
Proof.
  intros Hauth Hrun.
  destruct (like_all_channel_videos_snapshot _ _ _ _ _ _ _ Hrun)
    as (Hhandle & _ & _ & _ & Hlast).
  unfold App.run_liking_workflow, try_except, bind, App.get_state,
    App.update_state, App.get_authenticated_service.
  cbn [world log App.remote App.snapshot]. rewrite Hauth.
  unfold fetching_snapshot in Hrun. cbn [world log App.remote App.snapshot].
  rewrite Hrun. eexists. split; [reflexivity|]. split; [reflexivity|].
  cbn. repeat split; [exact Hhandle|].
  destruct results as [|r rs]; [now rewrite Hlast | ].
  destruct Hlast as (_ & Hl & Hv). now split.
Qed.

(** X18: when the consent flow raises, the workflow sends no request at
    all and the snapshot ends [ERROR] with the exception's text after
    ["Error: "]. *)
Theorem run_liking_workflow_authentication_error {A : Type}
        (authenticate : A -> outcome (Service A) * A) (name : string)
        (st : state (App.World A)) (e : exn) (a1 : A) :
  authenticate (App.remote (world st)) = (Raise e, a1) ->
  exists st',
    App.run_liking_workflow authenticate name st = (Return tt, st')
    /\ log st' = log st
    /\ App.status (App.snapshot (world st')) = App.ERROR
    /\ App.message (App.snapshot (world st'))
       = ("Error: " ++ str_exception e)%string
    /\ App.channel_name (App.snapshot (world st')) = name.
Proof.
  intros Hauth.
  unfold App.run_liking_workflow, try_except, bind, App.get_state,
    App.update_state, App.get_authenticated_service.
  cbn [world log App.remote App.snapshot]. rewrite Hauth.
  eexists. split; [reflexivity|]. repeat split.
Qed.

(** X19: when the channel is not found, the snapshot ends [ERROR] with
    the message ["Channel not found: "] and the handle as typed; the
    counters are as they were before the run and no channel id is set. *)
Theorem run_liking_workflow_channel_not_found {A : Type}
        (authenticate : A -> outcome (Service A) * A) (name : string)
        (st st2 : state (App.World A)) (youtube : Service A) (a1 : A)
        (videos : list Video.t) (results : list LikeResult) :
  authenticate (App.remote (world st)) = (Return youtube, a1) ->
  like_all_channel_videos
    (App.on_remote youtube) name (Some App.on_progress)
    {| world := App.mkWorld a1 (fetching_snapshot (App.snapshot (world st)) name);
       log := log st |}
  = (Return (None, videos, results), st2) ->
  exists st',
    App.run_liking_workflow authenticate name st = (Return tt, st')
    /\ log st' = log st2
    /\ App.snapshot (world st')
       = {| App.status := App.ERROR;
            App.message := ("Channel not found: " ++ name)%string;
            App.total_videos := App.total_videos (App.snapshot (world st));
            App.liked_videos := App.liked_videos (App.snapshot (world st));
            App.current_video_id :=
              App.current_video_id (App.snapshot (world st));
            App.channel_id := "";
            App.channel_name := name |}.
Proof.
  intros Hauth Hrun.
  destruct (like_all_channel_videos_snapshot _ _ _ _ _ _ _ Hrun)
    as ((_ & ->) & _ & _ & _ & Hsame).
  unfold App.run_liking_workflow, try_except, bind, App.get_state,
    App.update_state, App.get_authenticated_service.
  cbn [world log App.remote App.snapshot]. rewrite Hauth.
  unfold fetching_snapshot in Hrun. cbn [world log App.remote App.snapshot].
  rewrite Hrun. eexists. split; [reflexivity|]. split; [reflexivity|].
  cbn [world App.snapshot]. rewrite Hsame. reflexivity.
Qed.

Lemma run_liking_workflow_completed_witness :
  exists st',
    App.run_liking_workflow (sample_login 1) "@the_hampter" app_start
    = (Return tt, st')
    /\ App.status (App.snapshot (world st')) = App.COMPLETED
    /\ App.message (App.snapshot (world st'))
       = "Successfully liked 1/3 videos! ğŸ¹"%string
    /\ App.total_videos (App.snapshot (world st')) = 3
    /\ App.liked_videos (App.snapshot (world st')) = 2
    /\ App.current_video_id (App.snapshot (world st')) = "v2"%string.
Proof.
  destruct (run_liking_workflow_completed
              (sample_login 1) "@the_hampter" app_start
              (snd (like_all_channel_videos
                      (App.on_remote (hampter_service 1)) "@the_hampter"
                      (Some App.on_progress)
                      {| world := App.mkWorld 0
                                    (fetching_snapshot App.initial "@the_hampter");
                         log := [] |}))
              (hampter_service 1) 0
              (Channel.mk "UC123" "@the_hampter") three_videos
              [mkLikeResult "v1" true None false;
               mkLikeResult "v2" false (Some quota_message) true]
              eq_refl ltac:(vm_compute; reflexivity))
    as (st' & Hrun & _ & Hs & Hm & Ht & _ & _ & Hl & Hv).
  exists st'. repeat split; assumption.
Defined.

Lemma run_liking_workflow_authentication_error_witness :
  exists st',
    App.run_liking_workflow no_credentials "@the_hampter" app_start
    = (Return tt, st')
    /\ log st' = []
    /\ App.status (App.snapshot (world st')) = App.ERROR.
Proof.
  destruct (run_liking_workflow_authentication_error
              no_credentials "@the_hampter" app_start _ 0 eq_refl)
    as (st' & Hrun & Hlog & Hs & _).
  exists st'. repeat split; assumption.
Defined.

Lemma run_liking_workflow_channel_not_found_witness :
  exists st',
    App.run_liking_workflow (sample_login 1) "@ghost" app_start
    = (Return tt, st')
    /\ App.snapshot (world st')
       = {| App.status := App.ERROR;
            App.message := "Channel not found: @ghost";
            App.total_videos := 0;
            App.liked_videos := 0;
            App.current_video_id := "";
            App.channel_id := "";
            App.channel_name := "@ghost" |}.
Proof.
  destruct (run_liking_workflow_channel_not_found
              (sample_login 1) "@ghost" app_start
              (snd (like_all_channel_videos
                      (App.on_remote (hampter_service 1)) "@ghost"
                      (Some App.on_progress)
                      {| world := App.mkWorld 0
                                    (fetching_snapshot App.initial "@ghost");
                         log := [] |}))
              (hampter_service 1) 0 [] []
              eq_refl ltac:(vm_compute; reflexivity))
    as (st' & Hrun & _ & Hsnap).
  exists st'. split; assumption.
Defined.

(** ** The desktop front-end *)

Section GuiQueue.
Context {A : Type}.

Lemma ends_terminal_app (a b : list Gui.message) :
  ends_terminal b -> ends_terminal (a ++ b).
Proof.
  intros (front & final & -> & H). exists (a ++ front), final.
  now rewrite app_assoc.
Qed.

Lemma appends_ret {R} (r : R) : appends (A := A) (ret r).
Proof. intros st. exists []. cbn. now rewrite app_nil_r. Qed.

Lemma appends_lift {R} (o : outcome R) : appends (A := A) (lift o).
Proof. intros st. exists []. cbn. now rewrite app_nil_r. Qed.

Lemma appends_bind {R S} (m : M (Gui.World A) R) (k : R -> M (Gui.World A) S) :
  appends m -> (forall r, appends (k r)) -> appends (bind m k).
Proof.
  intros Hm Hk st. unfold bind. destruct (Hm st) as [d1 H1].
  destruct (m st) as [[r|e] st1]; cbn [snd] in *; [|now exists d1].
  destruct (Hk r st1) as [d2 H2]. exists (d1 ++ d2).
  now rewrite H2, H1, app_assoc.
Qed.

Lemma appends_try_except {R} (m : M (Gui.World A) R) (catches : exn -> bool)
      (handler : exn -> M (Gui.World A) R) :
  appends m -> (forall e, appends (handler e)) ->
  appends (try_except m catches handler).
Proof.
  intros Hm Hh st. unfold try_except. destruct (Hm st) as [d1 H1].
  destruct (m st) as [[r|e] st1]; cbn [snd] in *; [now exists d1|].
  destruct (catches e); [|now exists d1].
  destruct (Hh e st1) as [d2 H2]. exists (d1 ++ d2).
  now rewrite H2, H1, app_assoc.
Qed.

Lemma appends_call {R} (r : request) (f : A -> outcome R * A) :
  appends (call r (Gui.on_remote_call f)).
Proof.
  intros st. exists []. unfold call, Gui.on_remote_call.
  destruct (f (Gui.remote (world st))) as [o a]. cbn. now rewrite app_nil_r.
Qed.

Lemma appends_queue_put (msg : Gui.message) :
  appends (A := A) (Gui.queue_put msg).
Proof. intros st. now exists [msg]. Qed.

Lemma appends_show (messagebox : Gui.dialog -> A -> outcome unit * A)
      (d : Gui.dialog) :
  appends (Gui.show messagebox d).
Proof.
  intros st. exists []. unfold Gui.show.
  destruct (messagebox d (Gui.remote (world st))) as [o a].
  cbn. now rewrite app_nil_r.
Qed.

Lemma appends_invoke (i total : nat) (video : Video.t) :
  appends (A := A) (invoke Gui.on_progress i total video).
Proof.
  intros st. unfold invoke, Gui.on_progress, Gui.put. cbn zeta.
  destruct (Nat.eqb (i mod 5) 0); cbn [snd world Gui.message_queue];
    rewrite <- !app_assoc; eexists; reflexivity.
Qed.

Lemma appends_like_video (youtube : Service A) (video : Video.t) :
  appends (like_video (Gui.on_remote youtube) video).
Proof.
  unfold like_video. apply appends_try_except; [|intros e; apply appends_ret].
  apply appends_bind; [apply appends_call | intros; apply appends_ret].
Qed.

Lemma appends_like_loop (youtube : Service A) (total : nat)
      (todo : list (nat * Video.t)) :
  forall acc, appends (like_loop (Gui.on_remote youtube) Gui.on_progress
                                 total todo acc).
Proof.
  induction todo as [|[i v] todo IH]; intros acc; cbn [like_loop].
  - apply appends_ret.
  - apply appends_bind; [apply appends_like_video | intros r].
    apply appends_bind; [apply appends_invoke | intros _].
    destruct (quota_exceeded r); [apply appends_ret | apply IH].
Qed.

Lemma appends_reduce {R X} (f : R -> X -> M (Gui.World A) R) (xs : list X) :
  (forall r x, appends (f r x)) -> forall init, appends (reduce f xs init).
Proof.
  intros Hf. induction xs as [|x xs IH]; intros init; cbn [reduce].
  - apply appends_ret.
  - apply appends_bind; [apply Hf | intros r; apply IH].
Qed.

Lemma appends_like_all_channel_videos (youtube : Service A) (name : string) :
  appends (like_all_channel_videos (Gui.on_remote youtube) name
                                   (Some Gui.on_progress)).
Proof.
  unfold like_all_channel_videos. apply appends_bind.
  { unfold find_channel, lookup_strategies. cbn [try_strategies].
    apply appends_bind.
    { apply appends_try_except; [|intros e; apply appends_ret].
      apply appends_bind; [apply appends_call | intros r; apply appends_ret]. }
    intros r1. destruct (truthy_result r1).
    { apply appends_bind; [apply appends_lift | intros; apply appends_ret]. }
    apply appends_bind.
    { apply appends_try_except; [|intros e; apply appends_ret].
      apply appends_bind; [apply appends_call | intros r; apply appends_ret]. }
    intros r2. destruct (truthy_result r2); [|apply appends_ret].
    apply appends_bind; [apply appends_lift | intros; apply appends_ret]. }
  intros [c|]; [|apply appends_ret].
  apply appends_bind.
  { unfold fetch_channel_videos, fetch_all_video_ids.
    apply appends_bind; [|intros; apply appends_ret].
    apply appends_bind; [|intros; apply appends_ret].
    apply appends_reduce. intros [video_ids page_token] x.
    unfold accumulate_videos.
    destruct (is_None page_token && truthy video_ids); [apply appends_ret|].
    apply appends_bind; [apply appends_call | intros response].
    apply appends_bind; [apply appends_lift | intros; apply appends_ret]. }
  intros videos. apply appends_bind; [|intros; apply appends_ret].
  apply appends_like_loop.
Qed.

Lemma returns_terminal_bind {R S} (m : M (Gui.World A) R)
      (k : R -> M (Gui.World A) S) :
  appends m -> (forall r, returns_terminal (k r)) ->
  returns_terminal (bind m k).
Proof.
  intros Hm Hk st s st'. unfold bind. destruct (Hm st) as [d1 H1].
  destruct (m st) as [[r|e] st1]; cbn [snd] in *; [|discriminate].
  intros H. destruct (Hk r st1 s st' H) as (d2 & H2 & Hend).
  exists (d1 ++ d2). split; [now rewrite H2, H1, app_assoc|].
  now apply ends_terminal_app.
Qed.

Lemma returns_terminal_put_then (msg : Gui.message) {R}
      (m : M (Gui.World A) R) :
  Gui.is_terminal msg = true ->
  (forall st, Gui.message_queue (world (snd (m st)))
              = Gui.message_queue (world st)) ->
  returns_terminal (bind (Gui.queue_put msg) (fun _ => m)).
Proof.
  intros Hmsg Hm st r st'. unfold bind, Gui.queue_put. intros H.
  specialize (Hm {| world := Gui.put msg (world st); log := log st |}).
  rewrite H in Hm. cbn [snd world] in Hm.
  exists [msg]. split; [exact Hm|]. now exists [], msg.
Qed.

Lemma show_queue (messagebox : Gui.dialog -> A -> outcome unit * A)
      (d : Gui.dialog) (st : state (Gui.World A)) :
  Gui.message_queue (world (snd (Gui.show messagebox d st)))
  = Gui.message_queue (world st).
Proof.
  unfold Gui.show. now destruct (messagebox d (Gui.remote (world st))).
Qed.

End GuiQueue.

Section GuiWorkflow.
Context {A : Type}.

Lemma appends_get_authenticated_service
      (authenticate : A -> outcome (Service A) * A) :
  appends (Gui.get_authenticated_service authenticate).
Proof.
  intros st. exists []. unfold Gui.get_authenticated_service.
  destruct (authenticate (Gui.remote (world st))) as [o a].
  cbn. now rewrite app_nil_r.
Qed.

Lemma returns_terminal_put (msg : Gui.message) :
  Gui.is_terminal msg = true ->
  returns_terminal (A := A) (Gui.queue_put msg).
Proof.
  intros Hmsg st r st' H. unfold Gui.queue_put in H. inversion H; subst.
  exists [msg]. split; [reflexivity|]. now exists [], msg.
Qed.

Lemma last_stats_app (a b : list Gui.message) (s : nat * nat) :
  Gui.last_stats b = Some s -> Gui.last_stats (a ++ b) = Some s.
Proof.
  intros Hb. induction a as [|m a IH]; [exact Hb|].
  cbn [app Gui.last_stats]. now rewrite IH.
Qed.

End GuiWorkflow.

Ltac put_steps :=
  repeat first
    [ apply returns_terminal_put_then; [reflexivity | apply show_queue]
    | apply returns_terminal_bind; [apply appends_queue_put | intros _] ].

(** X20: whatever the consent flow, the API and the message boxes do, a
    run of [_run_workflow] only appends to the queue, and the last message
    it leaves there is [complete] or [error]: the window always gets the
    message that ends the run. *)
Theorem gui_run_workflow_ends_with_terminal_message {A : Type}
        (authenticate : A -> outcome (Service A) * A)
        (messagebox : Gui.dialog -> A -> outcome unit * A)
        (channel : string) (st : state (Gui.World A)) :
  exists msgs,
    Gui.message_queue
      (world (snd (Gui._run_workflow authenticate messagebox channel st)))
    = Gui.message_queue (world st) ++ msgs
    /\ ends_terminal msgs.
Proof.
  unfold Gui._run_workflow, try_except.
  match goal with |- context [match ?b st with _ => _ end] => set (body := b) end.
  assert (Hterm : returns_terminal body).
  { unfold body. put_steps.
    apply returns_terminal_bind;
      [apply appends_get_authenticated_service | intros youtube].
    put_steps.
    apply returns_terminal_bind;
      [apply appends_like_all_channel_videos | intros [[[c|] videos] results]].
    - put_steps. destruct (any_quota_exceeded results); put_steps.
    - now apply returns_terminal_put. }
  assert (Happ : appends body).
  { unfold body.
    repeat (apply appends_bind; [apply appends_queue_put | intros _]).
    apply appends_bind;
      [apply appends_get_authenticated_service | intros youtube].
    repeat (apply appends_bind; [apply appends_queue_put | intros _]).
    apply appends_bind;
      [apply appends_like_all_channel_videos | intros [[[c|] videos] results]].
    - repeat (apply appends_bind; [apply appends_queue_put | intros _]).
      destruct (any_quota_exceeded results);
        repeat (apply appends_bind; [apply appends_queue_put | intros _]);
        apply appends_show.
    - apply appends_queue_put. }
  destruct (Happ st) as [d Hd].
  destruct (body st) as [[r|e] st1] eqn:E; cbn [snd] in *.
  - exact (Hterm st r st1 E).
  - cbn [is_Exception]. unfold bind, Gui.queue_put. rewrite show_queue.
    cbn [world Gui.put Gui.message_queue]. rewrite Hd, <- app_assoc.
    eexists. split; [reflexivity|]. apply ends_terminal_app.
    eexists [], _. split; reflexivity.
Qed.

(** X21: when the channel is found and the workflow returns, the last
    [stats] message in the queue is the one sent after the workflow, which
    reports the number of videos and zero liked ones: the counts sent by
    the callback during the run are overwritten, whatever the message
    boxes do. *)
Theorem gui_run_workflow_final_stats_zero {A : Type}
        (authenticate : A -> outcome (Service A) * A)
        (messagebox : Gui.dialog -> A -> outcome unit * A)
        (channel : string) (st st2 : state (Gui.World A))
        (youtube : Service A) (a1 : A) (c : Channel.t)
        (videos : list Video.t) (results : list LikeResult) :
  authenticate (Gui.remote (world st)) = (Return youtube, a1) ->
  like_all_channel_videos
    (Gui.on_remote youtube) channel (Some Gui.on_progress)
    {| world := Gui.mkWorld a1 (Gui.message_queue (world st)
                                ++ Gui.opening channel);
       log := log st |}
  = (Return (Some c, videos, results), st2) ->
  Gui.last_stats
    (Gui.message_queue
       (world (snd (Gui._run_workflow authenticate messagebox channel st))))
  = Some (length videos, 0).
Proof.
  intros Hauth Hrun. unfold Gui.opening in Hrun.
  unfold Gui._run_workflow, try_except, bind, Gui.queue_put,
    Gui.get_authenticated_service, Gui.put.
  cbn [world log Gui.remote Gui.message_queue]. rewrite Hauth.
  cbn [world log Gui.remote Gui.message_queue].
  rewrite <- !app_assoc. cbn [app]. rewrite Hrun.
  cbn [world log Gui.remote Gui.message_queue].
  destruct (any_quota_exceeded results);
    cbn [world log Gui.remote Gui.message_queue];
    unfold Gui.show; cbn [world log Gui.remote Gui.message_queue];
    match goal with |- context [messagebox ?d ?a] =>
      destruct (messagebox d a) as [[[]|e] a2] end;
    cbn [is_Exception snd world log Gui.remote Gui.message_queue];
    try match goal with |- context [messagebox ?d ?a] =>
      destruct (messagebox d a) as [o3 a3] end;
    cbn [snd world Gui.message_queue];
    rewrite <- !app_assoc; cbn [app];
    apply last_stats_app; reflexivity.
Qed.

Lemma gui_run_workflow_final_stats_zero_witness :
  Gui.last_stats
    (Gui.message_queue
       (world (snd (Gui._run_workflow (sample_login 5) quiet_box
                                      "@the_hampter" gui_start))))
  = Some (3, 0).
Proof.
  exact (gui_run_workflow_final_stats_zero
           (sample_login 5) quiet_box "@the_hampter" gui_start
           (snd (like_all_channel_videos
                   (Gui.on_remote (hampter_service 5)) "@the_hampter"
                   (Some Gui.on_progress)
                   {| world := Gui.mkWorld 0 (Gui.opening "@the_hampter");
                      log := [] |}))
           (hampter_service 5) 0 (Channel.mk "UC123" "@the_hampter")
           three_videos
           [mkLikeResult "v1" true None false;
            mkLikeResult "v2" true None false;
            mkLikeResult "v3" true None false]
           eq_refl ltac:(vm_compute; reflexivity)).
Defined.

(** ** The first scripts *)

(** X22: [get_channel_id] of username.py does not answer "not found" for
    an unknown name: when the response has no items it raises the
    [IndexError] of [[][0]], and an API error is not caught.  It returns
    [None] only for a response whose first item is an empty object. *)
Theorem username_get_channel_id_not_found_raises {W : Type}
        (youtube : Service W) (username : string) (st : state W) :
  let ans := fst (channels_list_forUsername youtube username (world st)) in
  (forall response,
      ans = Return response ->
      get_default (channel_items response) [] = [] ->
      fst (Username.get_channel_id youtube username st)
      = Raise (OtherException "list index out of range"))
  /\ (forall e, ans = Raise e ->
                fst (Username.get_channel_id youtube username st) = Raise e)
  /\ (fst (Username.get_channel_id youtube username st) = Return None
      <-> exists response rest,
          ans = Return response
          /\ get_default (channel_items response) [] = [] :: rest).
Proof.
  cbn zeta. unfold Username.get_channel_id, bind, call, lift, ret.
  destruct (channels_list_forUsername youtube username (world st))
    as [[response|e] w']; cbn [fst].
  - split; [|split].
    + intros r Hr Hnil. inversion Hr; subst. now rewrite Hnil.
    + discriminate.
    + destruct (get_default (channel_items response) []) as [|channel rest] eqn:E;
        cbn [Username.first_of fst].
      * split; [discriminate|].
        intros (r & rest & Hr & H). inversion Hr; subst.
        rewrite E in H. discriminate.
      * destruct channel as [|kv channel]; cbn [truthy].
        -- split; [intros _; now exists response, rest | reflexivity].
        -- split.
           ++ cbn [subscript_id]. destruct (dict_get "id" (kv :: channel));
                discriminate.
           ++ intros (r & rest' & Hr & H). inversion Hr; subst.
              rewrite E in H. discriminate.
  - split; [|split].
    + discriminate.
    + intros e' H. now inversion H.
    + split; [discriminate | intros (r & rest & H & _); discriminate].
Qed.

Lemma liker_loop_follows_page_run {W : Type} (youtube : Service W)
      (channel_id : string) token st pages final st' :
  page_run youtube channel_id token st pages final st' ->
  well_formed_pages youtube channel_id ->
  truthy_token final = false ->
  forall (fuel : nat) (all_videos : list string),
    length pages <= fuel ->
    Liker.get_channel_videos_loop fuel youtube channel_id all_videos token st
    = (Return (Some (all_videos ++ concat pages)), st').
Proof.
  intros Hrun Hwf.
  induction Hrun as [token st response ids st1 Hfetch Hids
                    | token st response ids st1 next pages final st2
                        Hfetch Hids Hnext Hrun IH];
    intros Hfinal fuel all_videos Hfuel;
    (destruct fuel as [|fuel]; [cbn in Hfuel; lia|]);
    cbn [Liker.get_channel_videos_loop]; unfold bind at 1;
    unfold fetch_video_page in Hfetch; rewrite Hfetch;
    unfold call in Hfetch;
    destruct (search_list youtube channel_id 50 token (world st))
      as [o w1] eqn:Hsearch; inversion Hfetch; subst;
    destruct (Hwf _ _ _ _ Hsearch) as [Hitems Hcursor];
    unfold extract_video_ids in Hids;
    unfold bind at 1, lift, subscript_items;
    (destruct (items response) as [its|]; [|now elim Hitems]);
    cbn [get_default] in Hids; unfold bind at 1; rewrite Hids; cbn zeta.
  - rewrite Hfinal. cbn. now rewrite app_nil_r.
  - rewrite Hnext. rewrite Hnext in Hcursor.
    assert (Htruthy : truthy_token (Some next) = true).
    { cbn. destruct next; [now elim Hcursor | reflexivity]. }
    rewrite Htruthy. cbn [negb]. cbn [length] in Hfuel.
    rewrite (IH Hfinal fuel (all_videos ++ ids) ltac:(lia)).
    cbn [concat]. now rewrite <- app_assoc.
Qed.

(** X23: when the endpoint delivers a chain of pages linked by cursors,
    the last one without a cursor, [get_channel_videos] of liker.py
    returns the ids of all pages in order after one request per page; the
    pages may all be empty, so a channel without videos costs one
    request. *)
Theorem liker_get_channel_videos_follows_cursors {W : Type}
        (youtube : Service W) (channel_id : string) (st st' : state W)
        (pages : list (list string)) (final : option string) (fuel : nat) :
  page_run youtube channel_id None st pages final st' ->
  well_formed_pages youtube channel_id ->
  truthy_token final = false ->
  length pages <= fuel ->
  Liker.get_channel_videos fuel youtube channel_id st
  = (Return (Some (concat pages)), st')
  /\ exists delta,
      log st' = log st ++ delta /\ length delta = length pages.
Proof.
  intros Hrun Hwf Hfinal Hfuel. split.
  - unfold Liker.get_channel_videos. cbn zeta.
    exact (liker_loop_follows_page_run youtube channel_id None st pages final
             st' Hrun Hwf Hfinal fuel [] Hfuel).
  - destruct (page_run_log _ _ _ _ _ _ _ Hrun) as (d & Hd & Hl & _).
    now exists d.
Qed.

Lemma liker_loop_always_more {W : Type} (youtube : Service W)
      (channel_id : string) :
  always_more youtube channel_id ->
  forall (fuel : nat) (all_videos : list string) (token : option string)
         (st : state W),
  exists st',
    Liker.get_channel_videos_loop fuel youtube channel_id all_videos token st
    = (Return None, st')
    /\ length (log st') = length (log st) + fuel.
Proof.
  intros Hmore. induction fuel as [|fuel IH]; intros all_videos token st.
  - exists st. cbn. split; [reflexivity | lia].
  - destruct (Hmore token (world st))
      as (response & w' & Hsearch & (its & ids & Hitems & Hids) & Hnext).
    cbn [Liker.get_channel_videos_loop].
    unfold bind at 1, call. rewrite Hsearch.
    unfold bind at 1, lift, subscript_items. rewrite Hitems.
    unfold bind at 1. rewrite Hids. cbn zeta. rewrite Hnext. cbn [negb].
    destruct (IH (all_videos ++ ids) (nextPageToken response)
                 {| world := w';
                    log := log st
                           ++ [Request (SearchList channel_id 50 token)] |})
      as (st' & Hloop & Hlen).
    exists st'. split; [exact Hloop|].
    rewrite Hlen. cbn [log]. rewrite length_app. cbn. lia.
Qed.

(** X24: [get_channel_videos] of liker.py has no page cap: against an
    endpoint that hands out a cursor with every page its loop does not
    come to an end, however many rounds it is followed, and every round
    sends a request. *)
Theorem liker_get_channel_videos_unbounded {W : Type}
        (youtube : Service W) (channel_id : string) (st : state W)
        (fuel : nat) :
  always_more youtube channel_id ->
  exists st',
    Liker.get_channel_videos fuel youtube channel_id st = (Return None, st')
    /\ length (log st') = length (log st) + fuel.
Proof.
  intros Hmore. unfold Liker.get_channel_videos. cbn zeta.
  exact (liker_loop_always_more youtube channel_id Hmore fuel [] None st).
Qed.

Lemma endless_service_always_more : always_more endless_service "UC123".
Proof.
  intros token w. eexists. eexists. split; [reflexivity|].
  split; [|reflexivity]. eexists. eexists. split; reflexivity.
Qed.

Lemma empty_channel_service_well_formed :
  well_formed_pages empty_channel_service "UC123".
Proof.
  intros token w response w' H. inversion H; subst. split; discriminate.
Qed.

Lemma liker_get_channel_videos_follows_cursors_witness :
  Liker.get_channel_videos 1 empty_channel_service "UC123" start_unit
  = (Return (Some []),
     {| world := tt; log := [Request (SearchList "UC123" 50 None)] |}).
Proof.
  refine (proj1 (liker_get_channel_videos_follows_cursors
                   empty_channel_service "UC123" start_unit _ [[]] None 1
                   _ empty_channel_service_well_formed eq_refl _)).
  - eapply page_run_last; reflexivity.
  - cbn. lia.
Defined.

Lemma liker_get_channel_videos_unbounded_witness :
  exists st',
    Liker.get_channel_videos 1000 endless_service "UC123" start_unit
    = (Return None, st')
    /\ length (log st') = length (log start_unit) + 1000.
Proof.
  exact (liker_get_channel_videos_unbounded
           endless_service "UC123" start_unit 1000
           endless_service_always_more).
Defined.
